(** * SomaliJobs scraper: a shallow embedding of [scraper.py]

    The development follows the source file top to bottom: the keyword
    tables, the text helpers ([prettify_location], [detect_country],
    [clean_text], [decode_cf_email]), the [SeenTracker] class, the
    section walkers ([collect_section], [parse_job_details_section]) and
    the page scraper [scrape_job_page].  The theorems come after all the
    definitions.

    Python strings are sequences of Unicode code points, and [len]
    counts code points; a [str] is therefore a list of code points
    ([N]).  ASCII literals of the source are written [py "..."]. *)

From Stdlib Require Import NArith ZArith Lia Bool.
From stdpp Require Import gmap strings list.

(** ** Python strings *)

Abbreviation str := (list N).

Definition py (s : string) : str :=
  map Ascii.N_of_ascii (String.list_ascii_of_string s).

Module Py.

(** [a == b] on strings. *)
Fixpoint eqb (a b : str) : bool :=
  match a, b with
  | [], [] => true
  | x :: a', y :: b' => N.eqb x y && eqb a' b'
  | _, _ => false
  end.

(** Truthiness of a string: [if s] / [not s]. *)
Definition truthy (s : str) : bool :=
  match s with [] => false | _ :: _ => true end.

(** [a or b] on strings. *)
Definition or (a b : str) : str := if truthy a then a else b.

(** [str.isspace] for one code point; the same set is what [\s]
    matches in a [re] pattern over [str]. *)
Definition isspace (c : N) : bool :=
  (((9 <=? c) && (c <=? 13)) || ((28 <=? c) && (c <=? 32))
   || (c =? 133) || (c =? 160) || (c =? 5760)
   || ((8192 <=? c) && (c <=? 8202))
   || (c =? 8232) || (c =? 8233) || (c =? 8239) || (c =? 8287)
   || (c =? 12288))%N.

Definition is_upper (c : N) : bool := ((65 <=? c) && (c <=? 90))%N.
Definition is_lower (c : N) : bool := ((97 <=? c) && (c <=? 122))%N.

(** [str.lower] for one code point.  Besides [A-Z], the only code
    points whose lower-case form meets ASCII are U+0130 and U+212A;
    every other code point lower-cases to code points outside ASCII
    and is kept as it is, which is all that comparisons with the ASCII
    tables of this program can observe. *)
Definition lower_cp (c : N) : str :=
  (if is_upper c then [c + 32]
   else if c =? 304 then [105; 775]
   else if c =? 8490 then [107]
   else [c])%N.

Definition lower (s : str) : str := flat_map lower_cp s.

(** [str.title] on the ASCII letters: a letter after a letter is
    lower-cased, a letter after anything else is upper-cased.  Letters
    beyond ASCII, which Python cases as well (some of them into several
    characters), are copied as they are: what is stated of [title]
    holds for ASCII text. *)
Fixpoint title_from (prev_cased : bool) (s : str) : str :=
  match s with
  | [] => []
  | c :: r =>
    let cased := is_upper c || is_lower c in
    let c' := (if prev_cased
               then (if is_upper c then c + 32 else c)
               else (if is_lower c then c - 32 else c))%N in
    c' :: title_from cased r
  end.

Definition title (s : str) : str := title_from false s.

(** [str.strip()] with no argument. *)
Fixpoint lstrip (s : str) : str :=
  match s with
  | [] => []
  | c :: r => if isspace c then lstrip r else s
  end.

Definition rstrip (s : str) : str := rev (lstrip (rev s)).

Definition strip (s : str) : str := rstrip (lstrip s).

(** [s.replace(old, new)] for a one-character [old]. *)
Definition replace_char (old : N) (new : str) (s : str) : str :=
  flat_map (fun c => if (c =? old)%N then new else [c]) s.

(** [s.split('\n')]: never the empty list. *)
Fixpoint split_nl (s : str) : list str :=
  match s with
  | [] => [[]]
  | c :: r =>
    if (c =? 10)%N then [] :: split_nl r
    else match split_nl r with
         | h :: t => (c :: h) :: t
         | [] => [[c]]
         end
  end.

(** ['\n'.join(parts)]. *)
Fixpoint join_nl (parts : list str) : str :=
  match parts with
  | [] => []
  | [p] => p
  | p :: rest => p ++ 10%N :: join_nl rest
  end.

(** [s.startswith(p)] and [p in s]. *)
Fixpoint startswith (p s : str) : bool :=
  match p, s with
  | [], _ => true
  | a :: p', b :: s' => N.eqb a b && startswith p' s'
  | _ :: _, [] => false
  end.

Fixpoint contains (p s : str) : bool :=
  startswith p s ||
  match s with
  | [] => false
  | _ :: r => contains p r
  end.

End Py.

(** ** Regular-expression substitution

    [re.sub(pattern, repl, text)] for a pattern that never matches the
    empty string: the text is scanned from the left; where the pattern
    matches, the match is replaced by [repl] and the scan resumes after
    it; elsewhere the character is copied.  [m s] is the length of the
    match of the pattern at the start of [s], if any.  [skip] counts the
    characters of the current match still to be passed over. *)

Module Re.

Fixpoint sub_from (m : str -> option nat) (repl : str)
         (skip : nat) (s : str) : str :=
  match s with
  | [] => []
  | c :: r =>
    match skip with
    | S k => sub_from m repl k r
    | O =>
      match m s with
      | Some (S k) => repl ++ sub_from m repl k r
      | _ => c :: sub_from m repl 0 r
      end
    end
  end.

Definition sub (m : str -> option nat) (repl : str) (s : str) : str :=
  sub_from m repl 0 s.

(** Number of replacements [sub] performs. *)
Fixpoint count_from (m : str -> option nat) (skip : nat) (s : str) : nat :=
  match s with
  | [] => 0
  | c :: r =>
    match skip with
    | S k => count_from m k r
    | O =>
      match m s with
      | Some (S k) => S (count_from m k r)
      | _ => count_from m 0 r
      end
    end
  end.

Definition count (m : str -> option nat) (s : str) : nat :=
  count_from m 0 s.

(** Simple lower-casing used by [re.I]: again only the code points
    that reach ASCII matter. *)
Definition lower_simple (c : N) : N :=
  (if Py.is_upper c then c + 32
   else if c =? 304 then 105
   else if c =? 8490 then 107
   else c)%N.

(** One literal [p] of a pattern compiled with [re.I] against the text
    character [c]; [i] also matches the dotless i, [s] the long s. *)
Definition lit_ignorecase (p c : N) : bool :=
  let lc := lower_simple c in
  ((lc =? p) || ((p =? 105) && (lc =? 305)) || ((p =? 115) && (lc =? 383)))%N.

(** A literal word under [re.I]; returns the rest of the text. *)
Fixpoint word_ignorecase (w s : str) : option str :=
  match w, s with
  | [], _ => Some s
  | p :: w', c :: s' =>
    if lit_ignorecase p c then word_ignorecase w' s' else None
  | _ :: _, [] => None
  end.

(** Length of the longest prefix whose characters satisfy [f]:
    a greedy [[...]*]. *)
Fixpoint run (f : N -> bool) (s : str) : nat :=
  match s with
  | c :: r => if f c then S (run f r) else 0
  | [] => 0
  end.

(** [\[email\s*protected\]] with [re.I]. *)
Definition email_placeholder (s : str) : option nat :=
  match word_ignorecase (py "[email") s with
  | None => None
  | Some r1 =>
    match word_ignorecase (py "protected]") (Py.lstrip r1) with
    | None => None
    | Some r2 => Some (length s - length r2)
    end
  end.

(** [[ \t]{2,}]. *)
Definition blanks (s : str) : option nat :=
  let n := run (fun c => (c =? 32) || (c =? 9))%N s in
  if 2 <=? n then Some n else None.

(** [\n{3,}]. *)
Definition newlines (s : str) : option nat :=
  let n := run (fun c => c =? 10)%N s in
  if 3 <=? n then Some n else None.

End Re.

(** ** [clean_text] *)

Definition email_notice : str := py "[see original posting for email]".

(** The chain of [replace] calls: non-breaking space to space, the
    stray [U+00C2] dropped, middle dot to bullet. *)
Definition replace_artifacts (text : str) : str :=
  Py.replace_char 183%N [8226%N]
    (Py.replace_char 194%N []
      (Py.replace_char 160%N (py " ") text)).

Definition clean_text (text : str) : str :=
  if negb (Py.truthy text) then []
  else
    let text := replace_artifacts text in
    let text := Re.sub Re.email_placeholder email_notice text in
    let text := Re.sub Re.blanks (py " ") text in
    let text := Re.sub Re.newlines [10; 10]%N text in
    Py.strip (Py.join_nl (map Py.strip (Py.split_nl text))).

(** ** Keyword tables

    Both dictionaries are written as association lists in the order of
    the source: [detect_country] iterates [COUNTRY_MAP.items()] in that
    order and returns at the first hit. *)

Definition LOCATION_NAMES : list (str * str) :=
  map (fun kv => (py (fst kv), py (snd kv)))
  [ ("mogadishu", "Mogadishu"); ("muqdisho", "Mogadishu");
    ("hargeisa", "Hargeisa"); ("hargeysa", "Hargeisa");
    ("kismayo", "Kismayo"); ("kismaayo", "Kismayo");
    ("baidoa", "Baidoa"); ("baydhabo", "Baidoa"); ("garowe", "Garowe");
    ("garoowe", "Garowe"); ("bosaso", "Bosaso"); ("boosaaso", "Bosaso");
    ("jowhar", "Jowhar"); ("jawhar", "Jowhar");
    ("beledweyne", "Beledweyne");
    ("galkacayo", "Galkayo"); ("galkayo", "Galkayo");
    ("berbera", "Berbera");
    ("burao", "Burao"); ("burco", "Burao"); ("beledhawa", "Beledhawa");
    ("sheekh", "Sheekh"); ("jigjiga", "Jigjiga"); ("nairobi", "Nairobi");
    ("djibouti", "Djibouti"); ("somaliland", "Somaliland");
    ("puntland", "Puntland");
    ("somalia", "Somalia");
    ("somalia-and-somaliland", "Somalia & Somaliland");
    ("puntland-state-of-somalia", "Puntland, Somalia");
    ("mogadiscio", "Mogadishu") ]%string.

Definition COUNTRY_MAP : list (str * str) :=
  map (fun kv => (py (fst kv), py (snd kv)))
  [ ("mogadishu", "Somalia"); ("hargeisa", "Somalia");
    ("kismayo", "Somalia");
    ("baidoa", "Somalia"); ("garowe", "Somalia"); ("bosaso", "Somalia");
    ("jowhar", "Somalia"); ("beledweyne", "Somalia");
    ("galkayo", "Somalia");
    ("berbera", "Somalia"); ("burao", "Somalia");
    ("somaliland", "Somalia");
    ("puntland", "Somalia"); ("somalia", "Somalia");
    ("nairobi", "Kenya"); ("mombasa", "Kenya"); ("kenya", "Kenya");
    ("kampala", "Uganda"); ("djibouti", "Djibouti");
    ("jigjiga", "Ethiopia");
    ("addis ababa", "Ethiopia") ]%string.

(** [d.get(key)] on an association list with string keys. *)
Fixpoint dict_get (d : list (str * str)) (key : str) : option str :=
  match d with
  | [] => None
  | (k, v) :: rest => if Py.eqb k key then Some v else dict_get rest key
  end.

Definition prettify_location (slug : str) : str :=
  if negb (Py.truthy slug) then []
  else
    let key := Py.strip (Py.lower slug) in
    match dict_get LOCATION_NAMES key with
    | Some name => name
    | None => Py.title (Py.replace_char 45%N (py " ") slug)
    end.

(** The [for kw, country in COUNTRY_MAP.items()] loop of
    [detect_country], leaving at the first keyword found. *)
Fixpoint first_country (table : list (str * str)) (loc_lower : str)
  : option str :=
  match table with
  | [] => None
  | (kw, country) :: rest =>
    if Py.contains kw loc_lower then Some country
    else first_country rest loc_lower
  end.

Definition detect_country (location : str) : str :=
  if negb (Py.truthy location) then py "Somalia"
  else
    let loc_lower := Py.lower location in
    match first_country COUNTRY_MAP loc_lower with
    | Some country => country
    | None => py "Somalia"
    end.

(** ** Exceptions

    Code that can raise returns [result A]: either the exception or the
    value. *)

Inductive exn := ValueError | IndexError | AttributeError | JSONDecodeError.

Inductive result (A : Type) :=
| Raise (e : exn)
| Return (a : A).
Arguments Raise {A} e.
Arguments Return {A} a.

#[global] Instance result_ret : MRet result := fun A a => Return a.

#[global] Instance result_bind : MBind result := fun A B k r =>
  match r with
  | Raise e => Raise e
  | Return a => k a
  end.

(** The elements of a generator are produced in order; the first
    exception ends the iteration. *)
Fixpoint for_each {A B} (f : A -> result B) (l : list A) : result (list B) :=
  match l with
  | [] => Return []
  | a :: rest =>
    b ← f a;
    bs ← for_each f rest;
    mret (b :: bs)
  end.

(** ** [decode_cf_email] *)

Module Int16.

Definition digit (c : N) : option Z :=
  (if (48 <=? c) && (c <=? 57) then Some (Z.of_N c - 48)%Z
   else if (97 <=? c) && (c <=? 102) then Some (Z.of_N c - 87)%Z
   else if (65 <=? c) && (c <=? 70) then Some (Z.of_N c - 55)%Z
   else None)%N.

(** Digits of base 16, a single underscore allowed between two
    digits.  [after_digit] tells whether the previous character was a
    digit. *)
Fixpoint digits (acc : Z) (after_digit : bool) (s : str) : option Z :=
  match s with
  | [] => if after_digit then Some acc else None
  | c :: r =>
    if (c =? 95)%N then
      if after_digit then digits acc false r else None
    else
      match digit c with
      | Some d => digits (16 * acc + d)%Z true r
      | None => None
      end
  end.

(** After the sign: an optional [0x] / [0X] prefix, which may be
    followed by one underscore. *)
Definition unsigned (s : str) : option Z :=
  match s with
  | 48%N :: x :: r =>
    if ((x =? 120) || (x =? 88))%N then
      match r with
      | 95%N :: r' => digits 0 false r'
      | _ => digits 0 false r
      end
    else digits 0 false s
  | _ => digits 0 false s
  end.

(** [int(s, 16)] for a string [s]: surrounding white space is
    ignored, then comes an optional sign.  Decimal digits outside
    ASCII, which Python also accepts, are not digits here. *)
Definition parse (s : str) : result Z :=
  let body := Py.strip s in
  let r :=
    match body with
    | 43%N :: rest => unsigned rest
    | 45%N :: rest => option_map Z.opp (unsigned rest)
    | _ => unsigned body
    end in
  match r with
  | Some z => Return z
  | None => Raise ValueError
  end.

End Int16.

(** [chr(i)]. *)
Definition chr (i : Z) : result N :=
  if ((0 <=? i) && (i <? 1114112))%Z then Return (Z.to_N i)
  else Raise ValueError.

(** [range(start, stop, 2)]. *)
Definition range_by_2 (start stop : nat) : list nat :=
  map (fun k => start + 2 * k) (seq 0 ((stop - start + 1) / 2)).

(** [s[i:j]] for [0 <= i <= j]. *)
Definition slice (s : str) (i j : nat) : str := take (j - i) (drop i s).

(** The body of the [try] block. *)
Definition decode_cf_email_body (encoded : str) : result str :=
  key ← Int16.parse (slice encoded 0 2);
  for_each
    (fun i => g ← Int16.parse (slice encoded i (i + 2));
              chr (Z.lxor g key))
    (range_by_2 2 (length encoded)).

(** [except (ValueError, IndexError): return ''].  Any other exception
    would reach the caller. *)
Definition decode_cf_email (encoded : str) : result str :=
  match decode_cf_email_body encoded with
  | Raise ValueError | Raise IndexError => Return []
  | other => other
  end.

(** ** [SeenTracker]

    [hashlib.md5(...).hexdigest()] is left abstract: the tracker only
    uses it as a function from strings to keys. *)

Section SeenTracker.

Variable md5_hexdigest : str -> str.

Definition job_uid (url : str) : str := md5_hexdigest url.

Record SeenTracker := {
  filepath : str;
  seen : gmap str str;
}.

Definition is_seen (self : SeenTracker) (url : str) : bool :=
  bool_decide (is_Some (seen self !! job_uid url)).

(** [now] is [datetime.now().isoformat()]. *)
Definition mark_seen (now : str) (self : SeenTracker) (url : str)
  : SeenTracker :=
  {| filepath := filepath self;
     seen := <[job_uid url := now]> (seen self) |}.

(** [[u for u in urls if not self.is_seen(u)]]: the comprehension
    appends to a fresh list, in the order of [urls]. *)
Fixpoint filter_new (self : SeenTracker) (urls : list str) : list str :=
  match urls with
  | [] => []
  | u :: rest =>
    if negb (is_seen self u) then u :: filter_new self rest
    else filter_new self rest
  end.

End SeenTracker.

(** ** The parsed page

    [scrape_job_page] observes the fetched page through BeautifulSoup
    queries and through regular-expression searches over the raw
    markup.  A [page] records the answers to exactly those queries, in
    the shape the code consumes them, after [deobfuscate_emails] has
    rewritten the tree. *)

(** A tag met by [find_next_sibling]: its name, its [get_text()], and
    the [href] of the first link it holds ([el.find('a', href=True)]). *)
Record element := {
  el_name : str;
  el_text : str;
  el_link : option str;
}.

(** An [h2] tag: its [get_text()] and the tags that follow it under the
    same parent, in document order. *)
Record heading := {
  h_text : str;
  h_siblings : list element;
}.

(** One object of a JSON-LD block whose members are strings.  A member
    is [None] when its key is missing; [ld_org_name] is
    [item['hiringOrganization']['name']] and [ld_locality] is
    [item['jobLocation']['address']['addressLocality']]. *)
Record posting := {
  ld_type : option str;
  ld_title : option str;
  ld_datePosted : option str;
  ld_validThrough : option str;
  ld_org_name : option str;
  ld_locality : option str;
  ld_employmentType : option str;
}.

(** A [<script type="application/ld+json">]: [json.loads] either raises
    [JSONDecodeError] or yields the objects to iterate. *)
Inductive ld_script :=
| Malformed
| Items (items : list posting).

Record page := {
  (** [soup.find_all('script', type='application/ld+json')] *)
  pg_scripts : list ld_script;
  (** group 1 of the three searches of Method 2 over the raw markup *)
  pg_raw_org : option str;
  pg_raw_datePosted : option str;
  pg_raw_validThrough : option str;
  (** [soup.find('h1').get_text()] *)
  pg_h1 : option str;
  (** [get_text()] of every link whose [href] contains [/company/] *)
  pg_company_links : list str;
  (** [soup.find_all('h2')] *)
  pg_h2 : list heading;
  (** [soup.get_text()] *)
  pg_body_text : str;
  (** group 1 of the inline deadline search over [pg_body_text] *)
  pg_inline_deadline : option str;
}.

(** ** The job record: a dictionary from field names to strings.
    [j !!! k] reads [job[k]]; every key the code reads is created by
    the initial dictionary of [scrape_job_page]. *)

Abbreviation job := (gmap string str).

Definition nl : N := 10%N.

(** *** [location_from_url]: [re.search(r'/jobs/([^/]+)/', url)] *)

Definition jobs_segment_here (s : str) : option str :=
  if Py.startswith (py "/jobs/") s then
    let rest := drop 6 s in
    let n := Re.run (fun c => negb (c =? 47)%N) rest in
    if (0 <? n) && Py.startswith (py "/") (drop n rest)
    then Some (take n rest) else None
  else None.

Fixpoint search_jobs_segment (s : str) : option str :=
  match jobs_segment_here s with
  | Some g => Some g
  | None =>
    match s with
    | [] => None
    | _ :: r => search_jobs_segment r
    end
  end.

Definition location_from_url (url : str) : str :=
  match search_jobs_segment url with
  | Some g => prettify_location g
  | None => []
  end.

(** *** [collect_section] *)

Definition social_names : list str :=
  map py ["facebook"; "twitter"; "linkedin"; "whatsapp"; "telegram";
          "print"; "twitter(x)"; "open_in_new"].

Definition is_h1_h2 (name : str) : bool :=
  Py.eqb name (py "h1") || Py.eqb name (py "h2").

(** The [while] loop over the following siblings: [break] ends the
    walk, [continue] moves to the next sibling. *)
Fixpoint section_content (els : list element) : list str :=
  match els with
  | [] => []
  | el :: rest =>
    if is_h1_h2 (el_name el) then []
    else
      let text := Py.strip (el_text el) in
      if Py.contains (py "Similar Jobs") text
         || Py.eqb (el_name el) (py "footer") then []
      else if existsb (Py.eqb (Py.lower text)) social_names
      then section_content rest
      else if Py.truthy text then text :: section_content rest
      else section_content rest
  end.

Definition collect_section (h2 : heading) : str :=
  clean_text
    (take 2000 (Py.strip (Py.join_nl (section_content (h_siblings h2))))).

(** *** [parse_job_details_section] *)

Fixpoint grid_lines (els : list element) : list str :=
  match els with
  | [] => []
  | el :: rest =>
    if is_h1_h2 (el_name el) then []
    else if Py.eqb (el_name el) (py "footer")
            || Py.contains (py "Similar Jobs") (el_text el) then []
    else
      let text := Py.strip (el_text el) in
      (if Py.truthy text
       then filter (fun l => Py.truthy l = true)
                   (map Py.strip (Py.split_nl text))
       else [])
      ++ grid_lines rest
  end.

Definition grid_label_map : list (str * string) :=
  map (fun kv => (py (fst kv), snd kv))
  [ ("posted date", "datePosted"); ("posted", "datePosted");
    ("expire date", "deadline"); ("expire", "deadline");
    ("deadline", "deadline"); ("closing date", "deadline");
    ("category", "sector"); ("location", "location");
    ("job type", "type"); ("employment type", "type");
    ("experience level", "experience"); ("experience", "experience") ].

(** The inner [for label_key, field_name in label_map.items()] loop up
    to its [break]: the first label the line is equal to, with or
    without a trailing colon. *)
Fixpoint grid_label (m : list (str * string)) (line_lower : str)
  : option string :=
  match m with
  | [] => None
  | (label_key, field_name) :: rest =>
    if Py.eqb line_lower label_key
       || Py.eqb line_lower (label_key ++ py ":")
    then Some field_name
    else grid_label rest line_lower
  end.

(** The value stored for a field: locations go through
    [prettify_location]. *)
Definition stored_value (field_name : string) (value : str) : str :=
  if String.eqb field_name "location" then prettify_location value
  else value.

(** One iteration of [for i in range(len(lines))]. *)
Definition grid_step (lines : list str) (j : job) (i : nat) : job :=
  match lines !! i with
  | None => j
  | Some line =>
    let line_lower := Py.strip (Py.lower line) in
    match grid_label grid_label_map line_lower with
    | None => j
    | Some field_name =>
      if 0 <? i then
        match lines !! (i - 1) with
        | None => j
        | Some prev =>
          let value := Py.strip prev in
          if Py.truthy value && (length value <? 100)
          then <[field_name := stored_value field_name value]> j
          else j
        end
      else j
    end
  end.

Definition grid_scan (lines : list str) (j : job) : job :=
  foldl (grid_step lines) j (seq 0 (length lines)).

Definition parse_job_details_section (h2 : heading) (j : job) : job :=
  grid_scan (grid_lines (h_siblings h2)) j.

(** ** [scrape_job_page] *)

Definition initial_job (url : str) : job :=
  <["title" := []]> (<["organization" := []]> (
  <["location" := location_from_url url]> (<["country" := []]> (
  <["description" := []]> (<["url" := url]> (
  <["deadline" := []]> (<["datePosted" := []]> (
  <["sector" := []]> (<["source" := py "somalijobs"]> (
  <["type" := []]> (<["experience" := []]> (
  <["howToApply" := []]> (<["qualifications" := []]> (
  <["responsibilities" := []]> ∅)))))))))))))).

(** [d.get(key, '')] for an optional member. *)
Definition member (o : option str) : str := default [] o.

(** *** Method 1: JSON-LD structured data *)

Definition is_job_posting (item : posting) : bool :=
  match ld_type item with
  | Some t => Py.eqb t (py "JobPosting")
  | None => false
  end
  || bool_decide (is_Some (ld_datePosted item)).

Definition read_posting (j : job) (item : posting) : job :=
  if is_job_posting item then
    let j := <["title" := Py.or (member (ld_title item)) (j !!! "title")]> j in
    let j := <["datePosted" :=
                 Py.or (member (ld_datePosted item)) (j !!! "datePosted")]> j in
    let j := <["deadline" :=
                 Py.or (member (ld_validThrough item)) (j !!! "deadline")]> j in
    let j := if Py.truthy (member (ld_org_name item))
             then <["organization" := member (ld_org_name item)]> j
             else j in
    let loc_name := member (ld_locality item) in
    let j := if Py.truthy loc_name
             then <["location" := prettify_location loc_name]> j
             else j in
    let emp_type := member (ld_employmentType item) in
    if Py.truthy emp_type && negb (Py.eqb emp_type (py "Organization"))
    then <["type" := emp_type]> j
    else j
  else j.

(** A script that does not parse is passed over by the [except]
    clause. *)
Definition read_script (j : job) (script : ld_script) : job :=
  match script with
  | Malformed => j
  | Items items => foldl read_posting j items
  end.

Definition method1_json_ld (pg : page) (j : job) : job :=
  foldl read_script j (pg_scripts pg).

(** *** Method 2: regex on the raw HTML *)

(** [if not job[key]: m = re.search(...); if m: job[key] = m.group(1)] *)
Definition fill_if_empty (key : string) (found : option str) (j : job) : job :=
  if negb (Py.truthy (j !!! key)) then
    match found with
    | Some g => <[key := g]> j
    | None => j
    end
  else j.

Definition method2_raw_html (pg : page) (j : job) : job :=
  let j := fill_if_empty "organization" (pg_raw_org pg) j in
  let j := fill_if_empty "datePosted" (pg_raw_datePosted pg) j in
  fill_if_empty "deadline" (pg_raw_validThrough pg) j.

(** *** Method 3: HTML heading *)

Definition method3_heading (pg : page) (j : job) : job :=
  match pg_h1 pg with
  | Some text => <["title" := clean_text (Py.strip text)]> j
  | None => j
  end.

(** *** Method 4: company link *)

Fixpoint first_company_name (links : list str) : option str :=
  match links with
  | [] => None
  | link :: rest =>
    let text := Py.strip link in
    if Py.truthy text && (1 <? length text)
       && negb (Py.contains (py "See company") text)
    then Some text
    else first_company_name rest
  end.

Definition method4_company_link (pg : page) (j : job) : job :=
  if negb (Py.truthy (j !!! "organization")) then
    match first_company_name (pg_company_links pg) with
    | Some text => <["organization" := text]> j
    | None => j
    end
  else j.

(** *** Method 5: sections by [h2] headings *)

Definition apply_link_suffix (h2 : heading) : str :=
  match h_siblings h2 with
  | next_el :: _ =>
    match el_link next_el with
    | Some href =>
      if negb (Py.contains (py "somalijobs.com") href)
      then [nl; nl] ++ py "Apply at: " ++ href
      else []
    | None => []
    end
  | [] => []
  end.

Definition read_section (j : job) (h2 : heading) : job :=
  let heading := Py.lower (Py.strip (h_text h2)) in
  let content := collect_section h2 in
  if Py.contains (py "job description") heading
     || Py.eqb heading (py "description")
  then <["description" := content]> j
  else if Py.contains (py "skills") heading
          || Py.contains (py "qualifications") heading
          || Py.contains (py "requirements") heading
  then <["qualifications" := content]> j
  else if Py.contains (py "responsibilities") heading
          || Py.contains (py "duties") heading
  then <["responsibilities" := content]> j
  else if Py.contains (py "how to apply") heading
          || Py.contains (py "application") heading
  then <["howToApply" := content ++ apply_link_suffix h2]> j
  else if Py.contains (py "job details") heading
  then parse_job_details_section h2 j
  else j.

Definition method5_sections (pg : page) (j : job) : job :=
  foldl read_section j (pg_h2 pg).

(** *** Fallback: value above label in the body text *)

Definition body_lines (body_text : str) : list str :=
  filter (fun l => Py.truthy l = true)
         (map Py.strip (Py.split_nl body_text)).

Definition body_label_map : list (str * string) :=
  map (fun kv => (py (fst kv), snd kv))
  [ ("posted date", "datePosted"); ("expire date", "deadline");
    ("deadline", "deadline"); ("closing date", "deadline");
    ("category", "sector"); ("location", "location");
    ("job type", "type"); ("experience level", "experience") ].

Fixpoint body_label (m : list (str * string)) (line_lower : str)
  : option string :=
  match m with
  | [] => None
  | (label, field) :: rest =>
    if Py.eqb line_lower label then Some field
    else body_label rest line_lower
  end.

(** One iteration of [for i in range(1, len(body_lines))]. *)
Definition body_step (lines : list str) (j : job) (i : nat) : job :=
  match lines !! i with
  | None => j
  | Some line =>
    match body_label body_label_map (Py.lower line) with
    | None => j
    | Some field =>
      match lines !! (i - 1) with
      | None => j
      | Some value =>
        if Py.truthy value && (length value <? 100)
           && negb (Py.truthy (j !!! field))
        then <[field := stored_value field value]> j
        else j
      end
    end
  end.

Definition fallback_body_lines (pg : page) (j : job) : job :=
  let lines := body_lines (pg_body_text pg) in
  foldl (body_step lines) j (seq 1 (length lines - 1)).

Definition fallback_inline_deadline (pg : page) (j : job) : job :=
  if negb (Py.truthy (j !!! "deadline")) then
    match pg_inline_deadline pg with
    | Some g => <["deadline" := Py.strip g]> j
    | None => j
    end
  else j.

(** The field resolver chain: everything up to the assembly. *)
Definition resolve_fields (pg : page) (j : job) : job :=
  fallback_inline_deadline pg
    (fallback_body_lines pg
      (method5_sections pg
        (method4_company_link pg
          (method3_heading pg
            (method2_raw_html pg
              (method1_json_ld pg j)))))).

(** *** Assembly *)

Definition full_desc (j : job) : str :=
  let d := Py.or (j !!! "description") [] in
  let d := if Py.truthy (j !!! "qualifications")
           then d ++ [nl; nl] ++ py "=== Skills & Qualifications ==="
                  ++ [nl] ++ (j !!! "qualifications")
           else d in
  if Py.truthy (j !!! "responsibilities")
  then d ++ [nl; nl] ++ py "=== Responsibilities ==="
         ++ [nl] ++ (j !!! "responsibilities")
  else d.

(** The text handed to [clean_text]: [full_desc.strip()[:3000]]. *)
Definition capped_desc (j : job) : str := take 3000 (Py.strip (full_desc j)).

Definition combine_description (j : job) : job :=
  <["description" := clean_text (capped_desc j)]> j.

Definition fix_type (j : job) : job :=
  if negb (Py.truthy (j !!! "type"))
     || Py.eqb (j !!! "type") (py "Organization")
  then <["type" := py "Full Time"]> j
  else j.

Definition set_country (j : job) : job :=
  <["country" := detect_country (j !!! "location")]> j.

Definition cleaned_keys : list string :=
  ["title"; "organization"; "description"; "qualifications";
   "responsibilities"; "howToApply"; "sector"; "experience"].

Definition clean_fields (j : job) : job :=
  foldl (fun j key => <[key := clean_text (member (j !! key))]> j)
        j cleaned_keys.

Definition assemble (j : job) : job :=
  clean_fields (set_country (fix_type (combine_description j))).

(** [fetched] is the outcome of [fetch_page]: [None] when the three
    attempts failed. *)
Definition scrape_job_page (url : str) (fetched : option page) : option job :=
  match fetched with
  | None => None
  | Some pg => Some (assemble (resolve_fields pg (initial_job url)))
  end.

(** ** A scanner for the e-mail placeholder

    The proofs about [clean_text] follow the placeholder pattern
    [\[email\s*protected\]] through a text with a scanner.  Its state is
    the number of pattern characters matched by the end of the text read
    so far: [0] none, [6] the word [[email] and any white space after
    it, [16] a whole placeholder, which is then remembered. *)

Module Scan.

Definition pattern : str := py "[emailprotected]".

(** Where a character that does not continue the match leaves the
    scanner: a bracket opens a new match. *)
Definition restart (c : N) : nat :=
  if Re.lit_ignorecase 91%N c then 1 else 0.

Definition step (q : nat) (c : N) : nat :=
  if 16 <=? q then q
  else if (q =? 6) && Py.isspace c then 6
  else if Re.lit_ignorecase (nth q pattern 0%N) c then S q
  else restart c.

Definition run (q : nat) (s : str) : nat := foldl step q s.

Definition found (q : nat) : bool := 16 <=? q.

(** The state after white space. *)
Definition settle (q : nat) : nat :=
  if 16 <=? q then q else if q =? 6 then 6 else 0.

(** The part of the pattern that state [q] still waits for matches at
    the start of [s]. *)
Definition rest_match (q : nat) (s : str) : bool :=
  if q <? 6 then
    match Re.word_ignorecase (drop q (py "[email")) s with
    | Some r1 =>
      bool_decide
        (is_Some (Re.word_ignorecase (py "protected]") (Py.lstrip r1)))
    | None => false
    end
  else if q =? 6 then
    bool_decide (is_Some (Re.word_ignorecase (py "protected]") (Py.lstrip s)))
  else
    bool_decide
      (is_Some (Re.word_ignorecase (drop (q - 6) (py "protected]")) s)).

(** A text holds a placeholder. *)
Definition has_placeholder (s : str) : bool := found (run 0 s).

End Scan.

(** The characters that [replace_artifacts] removes. *)
Definition artifact (c : N) : bool :=
  ((c =? 160) || (c =? 194) || (c =? 183))%N.

(** A text that [clean_text] has nothing to substitute in: no artifact
    character and no e-mail placeholder. *)
Definition tidy (s : str) : Prop :=
  Forall (fun c => artifact c = false) s /\ Scan.has_placeholder s = false.

(** The two markers that [scrape_job_page] puts between the sections of
    the combined description. *)
Definition skills_marker : str :=
  [nl; nl] ++ py "=== Skills & Qualifications ===" ++ [nl].
Definition responsibilities_marker : str :=
  [nl; nl] ++ py "=== Responsibilities ===" ++ [nl].

(** The three sections of a record are tidy. *)
Definition sections_tidy (j : job) : Prop :=
  tidy (j !!! "description") /\ tidy (j !!! "qualifications")
  /\ tidy (j !!! "responsibilities").

(** The keys of the three sections. *)
Definition section_key (k : string) : Prop :=
  k = "description" \/ k = "qualifications" \/ k = "responsibilities".

(** ** Reference statements and sample inputs *)

Section FilterNewSpec.

Variable md5_hexdigest : str -> str.

(** What [filter_new] is said to return, in the words of its
    contract: walking the input in order, a URL that is seen is left
    out and a URL that is not seen is kept, nothing else. *)
Inductive unseen_in_order (self : SeenTracker)
  : list str -> list str -> Prop :=
| unseen_done : unseen_in_order self [] []
| unseen_keep u urls out :
    is_seen md5_hexdigest self u = false ->
    unseen_in_order self urls out ->
    unseen_in_order self (u :: urls) (u :: out)
| unseen_drop u urls out :
    is_seen md5_hexdigest self u = true ->
    unseen_in_order self urls out ->
    unseen_in_order self (u :: urls) out.

End FilterNewSpec.

(** A label of the grid stands under a short, non-empty value: line
    [i + 1] is a label of [field], line [i] is the value, and [v] is
    what the parser stores for it. *)
Definition short_value_above (lines : list str) (field : string) (v : str)
  : Prop :=
  exists i line prev,
    lines !! (S i) = Some line /\
    grid_label grid_label_map (Py.strip (Py.lower line)) = Some field /\
    lines !! i = Some prev /\
    Py.strip prev <> [] /\
    length (Py.strip prev) < 100 /\
    v = stored_value field (Py.strip prev).

(** No keyword of [COUNTRY_MAP] occurs in [s]. *)
Definition no_keyword_in (s : str) : Prop :=
  forall kw country, In (kw, country) COUNTRY_MAP -> Py.contains kw s = false.

Definition sample_url : str :=
  py "https://somalijobs.com/jobs/mogadishu/101/driver".

(** A page whose JSON-LD block
    [{"@type": "JobPosting", "title": "Program Officer"}]
    and whose heading [<h1>Driver</h1>] disagree on the title. *)
Definition page_two_titles : page := {|
  pg_scripts :=
    [Items [ {| ld_type := Some (py "JobPosting");
                ld_title := Some (py "Program Officer");
                ld_datePosted := None; ld_validThrough := None;
                ld_org_name := None; ld_locality := None;
                ld_employmentType := None |} ]];
  pg_raw_org := None; pg_raw_datePosted := None;
  pg_raw_validThrough := None;
  pg_h1 := Some (py "Driver");
  pg_company_links := []; pg_h2 := [];
  pg_body_text := py "Driver";
  pg_inline_deadline := None |}.

(** [<h2>Job Details</h2><div>Garowe\nLocation</div>] *)
Definition details_garowe : heading := {|
  h_text := py "Job Details";
  h_siblings :=
    [ {| el_name := py "div";
         el_text := py "Garowe" ++ [nl] ++ py "Location";
         el_link := None |} ] |}.

(** A page whose JSON-LD block
    [{"@type": "JobPosting", "title": "Nurse",
      "employmentType": "Organization"}]
    is followed by the two text lines [Part Time] and [Job Type]. *)
Definition page_sentinel_and_label : page := {|
  pg_scripts :=
    [Items [ {| ld_type := Some (py "JobPosting");
                ld_title := Some (py "Nurse");
                ld_datePosted := None; ld_validThrough := None;
                ld_org_name := None; ld_locality := None;
                ld_employmentType := Some (py "Organization") |} ]];
  pg_raw_org := None; pg_raw_datePosted := None;
  pg_raw_validThrough := None;
  pg_h1 := None;
  pg_company_links := []; pg_h2 := [];
  pg_body_text := py "Part Time" ++ [nl] ++ py "Job Type";
  pg_inline_deadline := None |}.

(** A page whose JSON-LD block
    [[{"@type": "WebSite"},
      {"@type": "JobPosting", "title": "Nurse",
       "employmentType": "Organization"}]]
    is all that it holds. *)
Definition page_site_and_sentinel : page := {|
  pg_scripts :=
    [Items [ {| ld_type := Some (py "WebSite");
                ld_title := None;
                ld_datePosted := None; ld_validThrough := None;
                ld_org_name := None; ld_locality := None;
                ld_employmentType := None |};
             {| ld_type := Some (py "JobPosting");
                ld_title := Some (py "Nurse");
                ld_datePosted := None; ld_validThrough := None;
                ld_org_name := None; ld_locality := None;
                ld_employmentType := Some (py "Organization") |} ]];
  pg_raw_org := None; pg_raw_datePosted := None;
  pg_raw_validThrough := None;
  pg_h1 := None;
  pg_company_links := []; pg_h2 := [];
  pg_body_text := [];
  pg_inline_deadline := None |}.

(** The objects of the JSON-LD blocks of the page that parse, in
    document order. *)
Definition postings (pg : page) : list posting :=
  flat_map (fun script => match script with
                          | Malformed => []
                          | Items items => items
                          end) (pg_scripts pg).

(** An object supplies an employment type when Method 1 reads it (its
    [@type] is [JobPosting] or it has a [datePosted] member) and its
    [employmentType] is neither missing, nor empty, nor
    ["Organization"]. *)
Definition supplies_type (item : posting) : bool :=
  is_job_posting item
  && (Py.truthy (member (ld_employmentType item))
      && negb (Py.eqb (member (ld_employmentType item)) (py "Organization"))).

(** The employment types that the structured data supplies, in
    document order. *)
Definition supplied_types (pg : page) : list str :=
  map (fun item => member (ld_employmentType item))
      (filter (fun item => supplies_type item = true) (postings pg)).

(** Some object that Method 1 reads reports the employment type
    ["Organization"]. *)
Definition reports_organization (pg : page) : Prop :=
  exists item,
    In item (postings pg) /\ is_job_posting item = true /\
    ld_employmentType item = Some (py "Organization").

(** No line under an [h2] heading and no line of the page text is one
    of the labels that the details grid and the body-text scan map to
    the type field. *)
Definition no_type_label (pg : page) : Prop :=
  (forall h2 line,
     In h2 (pg_h2 pg) -> In line (grid_lines (h_siblings h2)) ->
     grid_label grid_label_map (Py.strip (Py.lower line)) <> Some "type") /\
  (forall line,
     In line (body_lines (pg_body_text pg)) ->
     body_label body_label_map (Py.lower line) <> Some "type").

(** The number of e-mail placeholders that [clean_text] replaces by
    [email_notice] in [text]. *)
Definition placeholders (text : str) : nat :=
  Re.count Re.email_placeholder (replace_artifacts text).

(** Text with Windows line ends: [a\r\n\r\n\r\nb]. *)
Definition crlf_text : str :=
  py "a" ++ [13; 10; 13; 10; 13; 10]%N ++ py "b".

(** A page with two long sections:
    [<h2>Job Description</h2><div>xx...x</div>
     <h2>Requirements</h2><div>yy...y</div>],
    2000 characters in each [div]. *)
Definition div_x : element :=
  {| el_name := py "div"; el_text := repeat 120%N 2000; el_link := None |}.
Definition div_y : element :=
  {| el_name := py "div"; el_text := repeat 121%N 2000; el_link := None |}.

Definition page_long_sections : page := {|
  pg_scripts := []; pg_raw_org := None; pg_raw_datePosted := None;
  pg_raw_validThrough := None;
  pg_h1 := Some (py "Driver");
  pg_company_links := [];
  pg_h2 :=
    [ {| h_text := py "Job Description";
         h_siblings :=
           [ div_x;
             {| el_name := py "h2"; el_text := py "Requirements";
                el_link := None |};
             div_y ] |};
      {| h_text := py "Requirements"; h_siblings := [div_y] |} ];
  pg_body_text := py "Driver";
  pg_inline_deadline := None |}.

(** ** The encoding that [decode_cf_email] undoes

    The docstring of [decode_cf_email] describes the scheme: two
    hexadecimal digits per byte, the first byte is the key, every other
    byte is a character XOR the key.  The encoder is not in the source;
    it is written here to state the round trip. *)

Definition hex_char (d : N) : N := (if d <? 10 then 48 + d else 87 + d)%N.

Definition hex2 (b : N) : str := [hex_char (b / 16); hex_char (b mod 16)]%N.

Definition encode_cf_email (key : N) (text : str) : str :=
  hex2 key ++ flat_map (fun c => hex2 (N.lxor c key)) text.

(** ** [SeenTracker]: loading and saving

    The file of the tracker holds one JSON object from identifiers to
    time stamps.  [stored] is what [json.load] returns, [None] when the
    file is missing or is not JSON ([FileNotFoundError],
    [JSONDecodeError]); [cutoff] is
    [(datetime.now() - timedelta(days=60)).isoformat()]. *)

(** [a < b] on strings: the order of the code points, a proper prefix
    first. *)
Fixpoint str_ltb (a b : str) : bool :=
  match a, b with
  | _, [] => false
  | [], _ :: _ => true
  | x :: a', y :: b' => (x <? y)%N || ((x =? y)%N && str_ltb a' b')
  end.

(** [SeenTracker._load]: [{k: v for k, v in data.items() if v > cutoff}]. *)
Definition _load (stored : option (gmap str str)) (cutoff : str)
  : gmap str str :=
  match stored with
  | None => ∅
  | Some data => filter (fun kv => str_ltb cutoff kv.2 = true) data
  end.

(** [SeenTracker.__init__]. *)
Definition new_tracker (path : str) (stored : option (gmap str str))
           (cutoff : str) : SeenTracker :=
  {| filepath := path; seen := _load stored cutoff |}.

(** [SeenTracker.save]: the object written to the file. *)
Definition save (self : SeenTracker) : gmap str str := seen self.

(** The countries that [COUNTRY_MAP] names. *)
Definition countries : list str :=
  map py ["Somalia"; "Kenya"; "Uganda"; "Djibouti"; "Ethiopia"].


(** A sibling at which [collect_section] stops: the next [h1] or [h2],
    a [footer], or a tag whose stripped text holds [Similar Jobs]. *)
Definition section_end (el : element) : bool :=
  is_h1_h2 (el_name el)
  || Py.contains (py "Similar Jobs") (Py.strip (el_text el))
  || Py.eqb (el_name el) (py "footer").

(** The fields that the labels of the details grid stand for. *)
Definition grid_fields : list string :=
  ["datePosted"; "deadline"; "sector"; "location"; "type"; "experience"].

(** [<h2>Job Details</h2>] followed by a [div] and the next heading. *)
Definition details_then_heading : heading := {|
  h_text := py "Job Details";
  h_siblings :=
    [ {| el_name := py "div";
         el_text := py "Garowe" ++ [nl] ++ py "Location";
         el_link := None |};
      {| el_name := py "h2"; el_text := py "How to Apply";
         el_link := None |};
      {| el_name := py "div"; el_text := py "Send your CV";
         el_link := None |} ] |}.

(** A page whose raw markup, company link and body text all offer
    values for fields. *)
Definition page_with_fallbacks : page := {|
  pg_scripts := [];
  pg_raw_org := Some (py "Raw Org");
  pg_raw_datePosted := Some (py "2025-01-01");
  pg_raw_validThrough := Some (py "2025-02-01");
  pg_h1 := None;
  pg_company_links := [py "Linked Org"];
  pg_h2 := [];
  pg_body_text := py "Health" ++ [nl] ++ py "Category";
  pg_inline_deadline := Some (py "March 3, 2025") |}.

(** The fifteen keys of a job record. *)
Definition job_keys : gset string :=
  list_to_set
    ["title"; "organization"; "location"; "country"; "description"; "url";
     "deadline"; "datePosted"; "sector"; "source"; "type"; "experience";
     "howToApply"; "qualifications"; "responsibilities"].

(** The keys that the strategies and the assembly assign to: all but
    [url] and [source]. *)
Definition assigned_keys : gset string :=
  job_keys ∖ {["url"; "source"]}.

(** A record of the scraper for [url]: the fifteen keys, the URL and
    the source tag. *)
Definition well_formed (url : str) (j : job) : Prop :=
  dom j = job_keys /\ j !! "url" = Some url
  /\ j !! "source" = Some (py "somalijobs").

(** ** [collect_job_urls]: filtering and de-duplicating the links

    [links] is the list of [href]s that the browser hands back from
    [page.evaluate]; the loop over it keeps the list [urls] and the set
    [seen] of the addresses already taken. *)

Definition skip_patterns : list str :=
  [py "facebook.com"; py "twitter.com"; py "linkedin.com";
   py "whatsapp.com"; py "t.me"; py "/jobs/print/"].

(** [any(s in href for s in skip_patterns)]. *)
Definition skipped (href : str) : bool :=
  existsb (fun s => Py.contains s href) skip_patterns.

(** [s.split(c)[0]] for a one-character separator [c]: the text before
    the first [c], all of [s] when it holds none. *)
Fixpoint before (c : N) (s : str) : str :=
  match s with
  | [] => []
  | x :: r => if (x =? c)%N then [] else x :: before c r
  end.

(** [href.split('?')[0].split('#')[0]]. *)
Definition clean_url (href : str) : str := before 35 (before 63 href).

(** One turn of the loop; the state is [(urls, seen)]. *)
Definition link_step (st : list str * gset str) (href : str)
  : list str * gset str :=
  if skipped href then st
  else
    if negb (bool_decide (clean_url href ∈ st.2)) then
      (st.1 ++ [clean_url href], {[clean_url href]} ∪ st.2)
    else st.

(** The loop, from [urls = []] and [seen = set()]; the result is
    [urls]. *)
Definition filter_links (links : list str) : list str :=
  (foldl link_step ([], ∅) links).1.

(** What the loop keeps: [seen] holds exactly the members of [urls],
    and [urls] has no repetition. *)
Definition links_inv (st : list str * gset str) : Prop :=
  NoDup st.1 /\ forall u, u ∈ st.2 <-> u ∈ st.1.

(** ** [scrape_somalijobs]

    A run is given the list [all_urls] that [collect_job_urls] found and
    the tracker, [None] when the caller passes none.  [fetched i] is the
    page that [fetch_page] gets for the [i]-th address of the loop and
    [now i] is [datetime.now().isoformat()] at that turn.  The result is
    the list of jobs, the tracker as the run leaves it, and what [save]
    wrote to the tracker's file, [None] when nothing was written. *)

Definition MAX_JOBS : nat := 100.

Section Scrape.

Variable md5_hexdigest : str -> str.
Variable fetched : nat -> option page.
Variable now : nat -> str.

(** The body of the loop for the [i]-th address: [job and job['title']]
    asks for a record that is not empty and has a non-empty title;
    every record of [scrape_job_page] has the key [title]. *)
Definition scrape_step (st : list job * option SeenTracker) (i : nat)
           (url : str) : list job * option SeenTracker :=
  match scrape_job_page url (fetched i) with
  | Some job =>
    if negb (bool_decide (job = ∅)) && Py.truthy (job !!! "title") then
      (st.1 ++ [job],
       match st.2 with
       | Some seen_tracker =>
         Some (mark_seen md5_hexdigest (now i) seen_tracker url)
       | None => None
       end)
    else st
  | None => st
  end.

(** [for i, url in enumerate(urls_to_scrape)], from index [i] on. *)
Fixpoint scrape_loop (i : nat) (urls_to_scrape : list str)
         (st : list job * option SeenTracker)
  : list job * option SeenTracker :=
  match urls_to_scrape with
  | [] => st
  | url :: rest => scrape_loop (S i) rest (scrape_step st i url)
  end.

Definition scrape_somalijobs (all_urls : list str)
           (seen_tracker : option SeenTracker)
  : list job * option SeenTracker * option (gmap str str) :=
  match all_urls with
  | [] => ([], seen_tracker, None)
  | _ :: _ =>
    let new_urls :=
      match seen_tracker with
      | Some self => filter_new md5_hexdigest self all_urls
      | None => all_urls
      end in
    match new_urls with
    | [] => ([], seen_tracker, None)
    | _ :: _ =>
      let urls_to_scrape := take MAX_JOBS new_urls in
      let st := scrape_loop 0 urls_to_scrape ([], seen_tracker) in
      (st.1, st.2, save <$> st.2)
    end
  end.

(** What the loop adds to its state: jobs with a title, for addresses
    of the list in their order, and one mark for each of them. *)
Definition loop_adds (urls : list str) (st st' : list job * option SeenTracker)
  : Prop :=
  exists new : list job,
    st'.1 = st.1 ++ new /\
    (fun j : job => j !!! "url") <$> new `sublist_of` urls /\
    Forall (fun j : job => Py.truthy (j !!! "title") = true) new /\
    match st.2, st'.2 with
    | Some t, Some t' =>
      filepath t' = filepath t /\
      dom (seen t') = dom (seen t) ∪
        list_to_set ((fun j : job => job_uid md5_hexdigest (j !!! "url")) <$> new)
    | None, None => True
    | _, _ => False
    end.

End Scrape.

(** ** [step_scrape] of the pipeline

    [path] is [os.path.join(DATA_DIR, 'seen_jobs.json')], [stored] is
    what the file of the tracker holds when the step begins and
    [cutoff] the cutoff of the load.  The step returns the jobs; its
    effect is on the file, whose contents afterwards are the second
    component. *)
Definition step_scrape (md5_hexdigest : str -> str)
           (fetched : nat -> option page) (now : nat -> str)
           (path cutoff : str) (all_urls : list str)
           (stored : option (gmap str str))
  : list job * option (gmap str str) :=
  let tracker := new_tracker path stored cutoff in
  let r := scrape_somalijobs md5_hexdigest fetched now all_urls (Some tracker) in
  (r.1.1,
   match r.2 with
   | Some written => Some written
   | None => stored
   end).

(* ================================================================== *)
(** * Properties *)
(* ================================================================== *)

Example clean_text_ex1 :
  clean_text (py "  a   b  " ++ [10;10;10;10]%N ++ py " [Email  Protected] ")
  = py "a b" ++ [10;10]%N ++ email_notice.
Proof. vm_compute. reflexivity. Qed.

Example decode_cf_email_ex :
  decode_cf_email (py "2a4b6a48") = Return (py "a@b").
Proof. vm_compute. reflexivity. Qed.

(** Scenario 2 of the specification: a heading and a details grid. *)
Example scrape_driver_garowe :
  let pg := {|
    pg_scripts := []; pg_raw_org := None; pg_raw_datePosted := None;
    pg_raw_validThrough := None; pg_h1 := Some (py "Driver");
    pg_company_links := [];
    pg_h2 := [ {| h_text := py "Job Details";
                  h_siblings :=
                    [ {| el_name := py "div";
                         el_text := py "Garowe" ++ [nl] ++ py "Location"
                                    ++ [nl] ++ py "2025-03-15" ++ [nl]
                                    ++ py "Deadline";
                         el_link := None |} ] |} ];
    pg_body_text := py "Driver";
    pg_inline_deadline := None |} in
  (fun j => (j !!! "title", j !!! "location", j !!! "deadline", j !!! "type"))
    <$> scrape_job_page sample_url (Some pg)
  = Some (py "Driver", py "Garowe", py "2025-03-15", py "Full Time").
Proof. vm_compute. reflexivity. Qed.

(** ** [SeenTracker.filter_new] *)

Section FilterNew.

Variable md5_hexdigest : str -> str.
Implicit Types (self : SeenTracker) (urls out : list str) (u : str).

Lemma filter_new_unseen_in_order self urls :
  unseen_in_order md5_hexdigest self urls (filter_new md5_hexdigest self urls).
Proof.
  induction urls as [|u urls IH]; simpl.
  - constructor.
  - destruct (is_seen md5_hexdigest self u) eqn:E; simpl.
    + by apply unseen_drop.
    + by apply unseen_keep.
Qed.

Lemma unseen_in_order_unique self urls out :
  unseen_in_order md5_hexdigest self urls out ->
  out = filter_new md5_hexdigest self urls.
Proof.
  induction 1 as [|u urls out Hu _ IH|u urls out Hu _ IH]; simpl.
  - reflexivity.
  - rewrite Hu. simpl. by f_equal.
  - rewrite Hu. simpl. exact IH.
Qed.

Lemma filter_new_sublist self urls :
  filter_new md5_hexdigest self urls `sublist_of` urls.
Proof.
  induction urls as [|u urls IH]; simpl.
  - constructor.
  - destruct (is_seen md5_hexdigest self u); simpl.
    + by apply sublist_cons.
    + by apply sublist_skip.
Qed.

Lemma filter_new_elem self urls u :
  u ∈ filter_new md5_hexdigest self urls <->
  u ∈ urls /\ is_seen md5_hexdigest self u = false.
Proof.
  induction urls as [|v urls IH]; simpl.
  - split; [intros H; inversion H | intros [H _]; inversion H].
  - destruct (is_seen md5_hexdigest self v) eqn:E; simpl.
    + rewrite IH, elem_of_cons. split.
      * intros [? ?]; auto.
      * intros [[-> | ?] ?]; [congruence | auto].
    + rewrite !elem_of_cons, IH. split.
      * intros [-> | [? ?]]; auto.
      * intros [[-> | ?] ?]; auto.
Qed.

(** C7. [filter_new] returns exactly the input URLs that are not
    seen, in their original order: its result is the one list obtained
    by dropping the seen URLs and keeping the others in order; it is a
    subsequence of the input, and a URL belongs to it exactly when it
    belongs to the input and is not seen. *)
Theorem filter_new_exact self urls :
  (forall out,
     filter_new md5_hexdigest self urls = out <->
     unseen_in_order md5_hexdigest self urls out) /\
  filter_new md5_hexdigest self urls `sublist_of` urls /\
  (forall u,
     u ∈ filter_new md5_hexdigest self urls <->
     u ∈ urls /\ is_seen md5_hexdigest self u = false).
Proof.
  split; [|split].
  - intros out. split.
    + intros <-. apply filter_new_unseen_in_order.
    + intros H. symmetry. by apply unseen_in_order_unique.
  - apply filter_new_sublist.
  - apply filter_new_elem.
Qed.

End FilterNew.

(** ** [detect_country] *)

Lemma first_country_none table s :
  (forall kw country, In (kw, country) table -> Py.contains kw s = false) ->
  first_country table s = None.
Proof.
  induction table as [|[kw country] table IH]; intros H; simpl.
  - reflexivity.
  - rewrite (H kw country) by (left; reflexivity).
    apply IH. intros kw' c' Hin. apply (H kw' c'). by right.
Qed.

Lemma first_country_in table s country :
  first_country table s = Some country ->
  exists kw, In (kw, country) table.
Proof.
  induction table as [|[kw c] table IH]; simpl; [discriminate|].
  destruct (Py.contains kw s).
  - intros [= <-]. exists kw. by left.
  - intros H. destruct (IH H) as [kw' Hin]. exists kw'. by right.
Qed.

Lemma COUNTRY_MAP_names kw country :
  In (kw, country) COUNTRY_MAP -> country <> [].
Proof.
  intros Hin.
  assert (Hall : Forall (fun kv => Py.truthy (snd kv) = true) COUNTRY_MAP).
  { vm_compute. repeat constructor. }
  rewrite Forall_forall in Hall.
  apply list_elem_of_In in Hin. specialize (Hall _ Hin). simpl in Hall.
  intros ->. discriminate.
Qed.

Lemma detect_country_nonempty location : detect_country location <> [].
Proof.
  unfold detect_country.
  destruct (negb (Py.truthy location)); [discriminate|].
  destruct (first_country COUNTRY_MAP (Py.lower location)) eqn:E;
    [|discriminate].
  destruct (first_country_in _ _ _ E) as [kw Hin].
  by eapply COUNTRY_MAP_names.
Qed.

(** C10, as amended.  [detect_country] is total and never returns the
    empty string; when no keyword of the country table occurs in the
    lower-cased location (the empty location included), it returns
    ["Somalia"]. *)
Theorem detect_country_fallback location :
  detect_country location <> [] /\
  (no_keyword_in (Py.lower location) ->
   detect_country location = py "Somalia").
Proof.
  split; [apply detect_country_nonempty|].
  intros H. unfold detect_country.
  destruct (negb (Py.truthy location)); [reflexivity|].
  by rewrite (first_country_none _ _ H).
Qed.

Lemma no_keyword_in_forallb s :
  forallb (fun kv => negb (Py.contains (fst kv) s)) COUNTRY_MAP = true ->
  no_keyword_in s.
Proof.
  intros H kw country Hin. rewrite forallb_forall in H.
  specialize (H _ Hin). simpl in H. by destruct (Py.contains kw s).
Qed.

Lemma detect_country_fallback_witness :
  no_keyword_in (Py.lower (py "London")) /\
  detect_country (py "London") = py "Somalia".
Proof.
  assert (H : no_keyword_in (Py.lower (py "London"))).
  { apply no_keyword_in_forallb. vm_compute. reflexivity. }
  split; [exact H|].
  exact (proj2 (detect_country_fallback (py "London")) H).
Defined.

(** C10, as stated, fails: the location ["Nairobi"] contains none of
    the (lower-case) keywords of the table, and its country is
    ["Kenya"]. *)
Lemma detect_country_Nairobi :
  ~ (forall location,
       no_keyword_in location -> detect_country location = py "Somalia").
Proof.
  intros H. specialize (H (py "Nairobi")).
  assert (Hk : no_keyword_in (py "Nairobi")).
  { apply no_keyword_in_forallb. vm_compute. reflexivity. }
  specialize (H Hk). vm_compute in H. discriminate.
Qed.

(** ** [decode_cf_email] *)

Lemma Int16_parse_raises s e : Int16.parse s = Raise e -> e = ValueError.
Proof.
  unfold Int16.parse.
  destruct (match Py.strip s with
            | 43%N :: rest => Int16.unsigned rest
            | 45%N :: rest => option_map Z.opp (Int16.unsigned rest)
            | _ => Int16.unsigned (Py.strip s)
            end); [discriminate|]. by intros [= <-].
Qed.

Lemma chr_raises i e : chr i = Raise e -> e = ValueError.
Proof. unfold chr. case_match; [discriminate|]. by intros [= <-]. Qed.

Lemma for_each_raises {A B} (f : A -> result B) l e :
  (forall a e', f a = Raise e' -> e' = ValueError) ->
  for_each f l = Raise e -> e = ValueError.
Proof.
  intros Hf. induction l as [|a l IH]; simpl; [discriminate|].
  destruct (f a) eqn:Ea; simpl.
  - intros [= <-]. by eapply Hf.
  - destruct (for_each f l) eqn:El; simpl; [|discriminate].
    intros [= <-]. by apply IH.
Qed.

Lemma decode_cf_email_body_raises encoded e :
  decode_cf_email_body encoded = Raise e -> e = ValueError.
Proof.
  unfold decode_cf_email_body.
  destruct (Int16.parse (slice encoded 0 2)) as [e0|key] eqn:Ek; simpl.
  - intros [= <-]. by eapply Int16_parse_raises.
  - apply for_each_raises. intros i e'.
    destruct (Int16.parse (slice encoded i (i + 2))) as [e1|g] eqn:Eg; simpl.
    + intros [= <-]. by eapply Int16_parse_raises.
    + apply chr_raises.
Qed.

(** No exception leaves [decode_cf_email]. *)
Lemma decode_cf_email_never_raises encoded :
  exists s, decode_cf_email encoded = Return s.
Proof.
  unfold decode_cf_email.
  destruct (decode_cf_email_body encoded) as [e|s] eqn:E.
  - rewrite (decode_cf_email_body_raises _ _ E). by exists [].
  - by exists s.
Qed.

(** C6 fails on the code.  The odd-length input [123] is not rejected:
    the slice [encoded[2:4]] is the one-character string [3], which
    [int(_, 16)] accepts, and the result is the one-character string
    [chr(0x03 ^ 0x12)], not the empty string. *)
Theorem decode_cf_email_odd_length :
  length (py "123") = 3 /\
  decode_cf_email (py "123") = Return [17%N].
Proof. split; vm_compute; reflexivity. Qed.

(** The same happens with a sign, which is not a hexadecimal digit. *)
Example decode_cf_email_sign :
  decode_cf_email (py "00+a") = Return [nl].
Proof. vm_compute. reflexivity. Qed.

(** ** [clean_text] on sample inputs *)

(** C5 fails on the code.  [clean_text] is total and maps the empty
    string to itself, but it is not idempotent: lines are stripped after
    the runs of newlines are collapsed, so text with Windows line ends
    comes out with three newlines in a row, which a second call
    collapses to two. *)
Theorem clean_text_twice_differs :
  clean_text [] = [] /\
  clean_text crlf_text = py "a" ++ [nl; nl; nl] ++ py "b" /\
  clean_text (clean_text crlf_text) = py "a" ++ [nl; nl] ++ py "b".
Proof. repeat split; vm_compute; reflexivity. Qed.

(** ** The resolver chain on sample pages *)

(** C1 fails on the code.  Method 3 stores the text of the [h1] heading
    without looking at the title already found: structured data supplied
    ["Program Officer"], the record ends with ["Driver"]. *)
Theorem heading_overwrites_structured_title :
  let j0 := initial_job sample_url in
  method1_json_ld page_two_titles j0 !!! "title" = py "Program Officer" /\
  resolve_fields page_two_titles j0 !!! "title" = py "Driver" /\
  (fun j : job => j !!! "title")
    <$> scrape_job_page sample_url (Some page_two_titles)
  = Some (py "Driver").
Proof. repeat split; vm_compute; reflexivity. Qed.

(** C2 fails on the code.  The grid parser stores the value above a
    label without looking at the field: a record whose location is
    ["Mogadishu"] leaves the parser with the location ["Garowe"]. *)
Theorem grid_overwrites_location :
  let j0 := initial_job sample_url in
  j0 !!! "location" = py "Mogadishu" /\
  parse_job_details_section details_garowe j0 !!! "location" = py "Garowe".
Proof. split; vm_compute; reflexivity. Qed.

(** ** The grid parser *)

Lemma truthy_nonempty (s : str) : Py.truthy s = true -> s <> [].
Proof. by destruct s. Qed.

(** One iteration either leaves a field alone or stores a short value
    standing above one of the field's labels. *)
Lemma grid_step_field lines (j : job) i field :
  grid_step lines j i !! field = j !! field \/
  exists v, short_value_above lines field v /\
            grid_step lines j i !! field = Some v.
Proof.
  unfold grid_step.
  destruct (lines !! i) as [line|] eqn:Hline; [|by left].
  destruct (grid_label grid_label_map (Py.strip (Py.lower line)))
    as [field_name|] eqn:Hlabel; [|by left].
  destruct (0 <? i) eqn:Hi; [|by left].
  destruct (lines !! (i - 1)) as [prev|] eqn:Hprev; [|by left].
  destruct (Py.truthy (Py.strip prev) && (length (Py.strip prev) <? 100))
    eqn:Hok; [|by left].
  apply andb_true_iff in Hok as [Hne Hlen].
  apply Nat.ltb_lt in Hi, Hlen.
  destruct (decide (field_name = field)) as [->|Hother].
  - right. exists (stored_value field (Py.strip prev)). split.
    + exists (i - 1), line, prev.
      replace (S (i - 1)) with i by lia.
      repeat split; auto using truthy_nonempty.
    + by rewrite lookup_insert_eq.
  - left. by rewrite lookup_insert_ne.
Qed.

Lemma grid_scan_prefix lines (j : job) field n :
  let r := foldl (grid_step lines) j (seq 0 n) in
  r !! field = j !! field \/
  exists v, short_value_above lines field v /\ r !! field = Some v.
Proof.
  cbv zeta. induction n as [|n IH]; [by left|].
  rewrite seq_S, foldl_snoc. cbn [Nat.add].
  destruct (grid_step_field lines (foldl (grid_step lines) j (seq 0 n))
                            n field) as [Hsame|Hnew].
  - rewrite Hsame. exact IH.
  - by right.
Qed.

(** C8. Whatever lines were collected, a field of the record after the
    scan either is what it was before, or holds the value of a line
    standing directly above a label of that field, and that value is
    non-empty and strictly shorter than 100 characters: a value of 100
    characters or more is never written, even under an exact label. *)
Theorem grid_scan_rejects_long_values lines (j : job) field :
  grid_scan lines j !! field = j !! field \/
  exists v, short_value_above lines field v /\
            grid_scan lines j !! field = Some v.
Proof. apply grid_scan_prefix. Qed.

(** The same for the parser applied to a heading. *)
Corollary parse_job_details_section_rejects_long_values h2 (j : job) field :
  parse_job_details_section h2 j !! field = j !! field \/
  exists v, short_value_above (grid_lines (h_siblings h2)) field v /\
            parse_job_details_section h2 j !! field = Some v.
Proof. apply grid_scan_prefix. Qed.

(** A label whose value has 100 characters leaves the record alone. *)
Example grid_scan_100 :
  let long := repeat 120%N 100 in
  grid_scan [long; py "Category"] ∅ = (∅ : job) /\
  grid_scan [take 99 long; py "Category:"] ∅
  = ({["sector" := take 99 long]} : job).
Proof. split; vm_compute; reflexivity. Qed.

(** ** Assembly: the employment type *)

Lemma fix_type_type (j : job) :
  fix_type j !!! "type" =
  if negb (Py.truthy (j !!! "type")) || Py.eqb (j !!! "type") (py "Organization")
  then py "Full Time" else j !!! "type".
Proof.
  unfold fix_type. case_match; [|reflexivity].
  by rewrite lookup_total_insert_eq.
Qed.

Lemma Py_eqb_eq (a b : str) : Py.eqb a b = true <-> a = b.
Proof.
  revert b. induction a as [|x a IH]; intros [|y b]; simpl;
    try (split; intros; (reflexivity || discriminate)).
  rewrite andb_true_iff, N.eqb_eq, IH. split.
  - intros [Hx Ha]. by rewrite Hx, Ha.
  - intros Heq. by injection Heq.
Qed.

Lemma clean_fields_other (j : job) key :
  key ∉ cleaned_keys -> clean_fields j !!! key = j !!! key.
Proof.
  unfold clean_fields. revert j.
  induction cleaned_keys as [|k ks IH]; intros j Hk; simpl; [reflexivity|].
  rewrite IH by (intros ?; apply Hk; by right).
  apply lookup_total_insert_ne. intros ->. apply Hk. by left.
Qed.

Lemma assemble_type (j : job) :
  assemble j !!! "type" = fix_type (combine_description j) !!! "type".
Proof.
  unfold assemble.
  rewrite clean_fields_other by (apply (bool_decide_unpack _); vm_compute; exact I).
  unfold set_country. by rewrite lookup_total_insert_ne.
Qed.

Lemma combine_description_type (j : job) :
  combine_description j !!! "type" = j !!! "type".
Proof. unfold combine_description. by rewrite lookup_total_insert_ne. Qed.

Lemma assemble_type_cases (j : job) :
  assemble j !!! "type" =
  if negb (Py.truthy (j !!! "type")) || Py.eqb (j !!! "type") (py "Organization")
  then py "Full Time" else j !!! "type".
Proof.
  by rewrite assemble_type, fix_type_type, combine_description_type.
Qed.

(** What Method 1 leaves in the type field: the employment type of the
    object, when the object supplies one. *)
Lemma read_posting_type (j : job) item :
  read_posting j item !!! "type" =
  if supplies_type item then member (ld_employmentType item)
  else j !!! "type".
Proof.
  unfold read_posting, supplies_type.
  destruct (is_job_posting item); cbn [andb]; [|reflexivity].
  destruct (Py.truthy (member (ld_employmentType item))
            && negb (Py.eqb (member (ld_employmentType item))
                            (py "Organization"))).
  - by rewrite lookup_total_insert_eq.
  - repeat case_match; by rewrite ?lookup_total_insert_ne.
Qed.

Lemma default_last_cons (d x : str) l :
  default d (last (x :: l)) = default x (last l).
Proof. rewrite last_cons. by destruct (last l). Qed.

Lemma read_script_type items : forall j : job,
  foldl read_posting j items !!! "type" =
  default (j !!! "type")
    (last (map (fun item => member (ld_employmentType item))
               (filter (fun item => supplies_type item = true) items))).
Proof.
  induction items as [|item items IH]; intros j; [reflexivity|].
  cbn [foldl]. rewrite IH, read_posting_type.
  destruct (supplies_type item) eqn:E.
  - rewrite filter_cons_True by done. cbn [map].
    by rewrite default_last_cons.
  - rewrite filter_cons_False by (by rewrite E). reflexivity.
Qed.

Lemma default_last_app (d : str) l1 l2 :
  default d (last (l1 ++ l2)) = default (default d (last l1)) (last l2).
Proof. rewrite last_app. by destruct (last l2). Qed.

Lemma method1_json_ld_type pg (j : job) :
  method1_json_ld pg j !!! "type" =
  default (j !!! "type") (last (supplied_types pg)).
Proof.
  unfold method1_json_ld, supplied_types, postings.
  generalize (pg_scripts pg). intros scripts. revert j.
  induction scripts as [|script scripts IH]; intros j; [reflexivity|].
  cbn [foldl flat_map]. rewrite IH.
  rewrite filter_app, map_app, default_last_app. f_equal.
  destruct script as [|items]; [reflexivity|]. apply read_script_type.
Qed.

Lemma initial_job_type url : initial_job url !!! "type" = [].
Proof. reflexivity. Qed.

(** A supplied type is neither empty nor ["Organization"]. *)
Lemma supplied_types_usable pg :
  Forall (fun t => t <> [] /\ t <> py "Organization") (supplied_types pg).
Proof.
  unfold supplied_types. apply Forall_forall. intros t Ht.
  apply list_elem_of_fmap in Ht as (item & -> & Hitem).
  apply list_elem_of_filter in Hitem as [Hs _].
  unfold supplies_type in Hs.
  apply andb_true_iff in Hs as [_ Hs].
  apply andb_true_iff in Hs as [Hne Horg]. split.
  - by apply truthy_nonempty.
  - intros E. rewrite E in Horg. discriminate.
Qed.

(** *** The later strategies and the type field *)

Lemma fill_if_empty_other key found (j : job) k :
  key <> k -> fill_if_empty key found j !!! k = j !!! k.
Proof.
  intros Hk. unfold fill_if_empty.
  destruct (negb _); [|reflexivity].
  destruct found; [|reflexivity]. by apply lookup_total_insert_ne.
Qed.

Lemma method2_raw_html_type pg (j : job) :
  method2_raw_html pg j !!! "type" = j !!! "type".
Proof. unfold method2_raw_html. by rewrite !fill_if_empty_other. Qed.

Lemma method3_heading_type pg (j : job) :
  method3_heading pg j !!! "type" = j !!! "type".
Proof.
  unfold method3_heading. destruct (pg_h1 pg); [|reflexivity].
  by apply lookup_total_insert_ne.
Qed.

Lemma method4_company_link_type pg (j : job) :
  method4_company_link pg j !!! "type" = j !!! "type".
Proof.
  unfold method4_company_link. repeat case_match; try reflexivity.
  by apply lookup_total_insert_ne.
Qed.

Lemma grid_step_unlabelled lines (j : job) i field :
  (forall line, lines !! i = Some line ->
     grid_label grid_label_map (Py.strip (Py.lower line)) <> Some field) ->
  grid_step lines j i !! field = j !! field.
Proof.
  intros H. unfold grid_step.
  destruct (lines !! i) as [line|]; [|reflexivity].
  specialize (H line eq_refl).
  destruct (grid_label grid_label_map _) as [f|]; [|reflexivity].
  repeat case_match; try reflexivity.
  apply lookup_insert_ne. congruence.
Qed.

Lemma grid_steps_unlabelled lines field (l : list nat) : forall j : job,
  (forall i line, i ∈ l -> lines !! i = Some line ->
     grid_label grid_label_map (Py.strip (Py.lower line)) <> Some field) ->
  foldl (grid_step lines) j l !! field = j !! field.
Proof.
  induction l as [|i l IH]; intros j H; [reflexivity|]. cbn [foldl].
  rewrite IH by (intros i' line Hi; apply H; by right).
  apply grid_step_unlabelled. intros line. apply H. by left.
Qed.

Lemma read_section_type (j : job) h2 :
  (forall line, In line (grid_lines (h_siblings h2)) ->
     grid_label grid_label_map (Py.strip (Py.lower line)) <> Some "type") ->
  read_section j h2 !!! "type" = j !!! "type".
Proof.
  intros H. unfold read_section.
  repeat case_match; try reflexivity;
    try (by apply lookup_total_insert_ne).
  unfold parse_job_details_section, grid_scan.
  rewrite !lookup_total_alt. f_equal.
  apply grid_steps_unlabelled. intros i line _ Hline. apply H.
  apply list_elem_of_In. by eapply list_elem_of_lookup_2.
Qed.

Lemma method5_sections_type pg (j : job) :
  (forall h2 line,
     In h2 (pg_h2 pg) -> In line (grid_lines (h_siblings h2)) ->
     grid_label grid_label_map (Py.strip (Py.lower line)) <> Some "type") ->
  method5_sections pg j !!! "type" = j !!! "type".
Proof.
  unfold method5_sections. generalize (pg_h2 pg). intros hs. revert j.
  induction hs as [|h2 hs IH]; intros j H; [reflexivity|].
  cbn [foldl]. rewrite IH by (intros ? ? ?; apply H; by right).
  apply read_section_type. intros line. apply H. by left.
Qed.

Lemma body_step_unlabelled lines (j : job) i field :
  (forall line, lines !! i = Some line ->
     body_label body_label_map (Py.lower line) <> Some field) ->
  body_step lines j i !!! field = j !!! field.
Proof.
  intros H. unfold body_step.
  destruct (lines !! i) as [line|]; [|reflexivity].
  specialize (H line eq_refl).
  destruct (body_label body_label_map _) as [f|]; [|reflexivity].
  repeat case_match; try reflexivity.
  apply lookup_total_insert_ne. congruence.
Qed.

Lemma fallback_body_lines_type pg (j : job) :
  (forall line,
     In line (body_lines (pg_body_text pg)) ->
     body_label body_label_map (Py.lower line) <> Some "type") ->
  fallback_body_lines pg j !!! "type" = j !!! "type".
Proof.
  unfold fallback_body_lines.
  generalize (body_lines (pg_body_text pg)) as lines. intros lines H.
  generalize (seq 1 (length lines - 1)) as l. intros l. revert j.
  induction l as [|i l IH]; intros j; [reflexivity|].
  cbn [foldl]. rewrite IH.
  apply body_step_unlabelled. intros line Hline. apply H.
  apply list_elem_of_In. by eapply list_elem_of_lookup_2.
Qed.

Lemma fallback_inline_deadline_type pg (j : job) :
  fallback_inline_deadline pg j !!! "type" = j !!! "type".
Proof.
  unfold fallback_inline_deadline. repeat case_match; try reflexivity.
  by apply lookup_total_insert_ne.
Qed.

(** Where no line is a label of the type field, the strategies after
    Method 1 leave the type alone. *)
Lemma resolve_fields_type pg (j : job) :
  no_type_label pg ->
  resolve_fields pg j !!! "type" = method1_json_ld pg j !!! "type".
Proof.
  intros [Hgrid Hbody]. unfold resolve_fields.
  rewrite fallback_inline_deadline_type.
  rewrite fallback_body_lines_type by done.
  rewrite method5_sections_type by done.
  by rewrite method4_company_link_type, method3_heading_type,
    method2_raw_html_type.
Qed.

(** C9, as amended.  After assembly the employment type is never empty:
    a type that is unset or equal to ["Organization"] when the record is
    assembled becomes ["Full Time"], any other type is kept.  Method 1
    never stores ["Organization"]: it leaves in the type field the last
    employment type that the structured data supplies, and nothing when
    it supplies none.  So a document whose structured data supplies no
    type (it reports ["Organization"], or no employment type at all)
    ends with ["Full Time"] whenever the later strategies leave the type
    as Method 1 left it, which they do when no line that they scan is a
    label of the type field. *)
Theorem final_type url pg (j : job) :
  scrape_job_page url (Some pg) = Some j ->
  let m := method1_json_ld pg (initial_job url) in
  let r := resolve_fields pg (initial_job url) in
  j !!! "type" <> [] /\
  j !!! "type" =
    (if negb (Py.truthy (r !!! "type")) || Py.eqb (r !!! "type") (py "Organization")
     then py "Full Time" else r !!! "type") /\
  m !!! "type" = default [] (last (supplied_types pg)) /\
  m !!! "type" <> py "Organization" /\
  (supplied_types pg = [] -> r !!! "type" = m !!! "type" ->
   j !!! "type" = py "Full Time") /\
  (no_type_label pg -> r !!! "type" = m !!! "type").
Proof.
  intros [= <-] m r. subst m r.
  set (r := resolve_fields pg (initial_job url)).
  set (m := method1_json_ld pg (initial_job url)).
  assert (Hm : m !!! "type" = default [] (last (supplied_types pg)))
    by (subst m; by rewrite method1_json_ld_type, initial_job_type).
  rewrite assemble_type_cases.
  split; [|split; [|split; [|split; [|split]]]].
  - destruct (Py.truthy (r !!! "type")) eqn:Ht; simpl.
    + case_match; [discriminate|]. intros E. by rewrite E in Ht.
    + discriminate.
  - reflexivity.
  - exact Hm.
  - rewrite Hm. destruct (last (supplied_types pg)) as [t|] eqn:E;
      [|discriminate].
    apply last_Some_elem_of in E.
    pose proof (supplied_types_usable pg) as Hall.
    rewrite Forall_forall in Hall. by apply Hall.
  - intros Hnone Hsame. rewrite Hsame, Hm, Hnone. reflexivity.
  - intros Hlabel. by apply resolve_fields_type.
Qed.

Lemma no_type_label_site_and_sentinel : no_type_label page_site_and_sentinel.
Proof. split; [intros h2 line []|intros line []]. Qed.

Lemma final_type_witness :
  exists j,
    scrape_job_page sample_url (Some page_site_and_sentinel) = Some j /\
    j !!! "type" = py "Full Time".
Proof.
  eexists. split; [reflexivity|].
  refine (proj1 (proj2 (proj2 (proj2 (proj2
            (final_type sample_url page_site_and_sentinel _ eq_refl)))))
            eq_refl _).
  refine (proj2 (proj2 (proj2 (proj2 (proj2
            (final_type sample_url page_site_and_sentinel _ eq_refl)))))
            no_type_label_site_and_sentinel).
Defined.

(** C9, as stated, fails: the structured data of this page reports
    ["Organization"] and no other employment type, the body-text scan
    then finds [Part Time] above the label [Job Type], and the record
    ends with the type ["Part Time"]. *)
Lemma sentinel_with_type_label :
  reports_organization page_sentinel_and_label /\
  supplied_types page_sentinel_and_label = [] /\
  (fun j : job => j !!! "type")
    <$> scrape_job_page sample_url (Some page_sentinel_and_label)
  = Some (py "Part Time").
Proof.
  split; [|split].
  - eexists. split; [left; reflexivity|]. split; reflexivity.
  - reflexivity.
  - vm_compute. reflexivity.
Qed.

(** ** Lengths through [clean_text] *)

Section Substitution.

Variable m : str -> option nat.
Variable repl : str.

Lemma sub_from_drop k s :
  Re.sub_from m repl k s = Re.sub m repl (drop k s).
Proof.
  revert k. induction s as [|c r IH]; intros [|k]; simpl; try reflexivity.
  apply IH.
Qed.

Lemma count_from_drop k s :
  Re.count_from m k s = Re.count m (drop k s).
Proof.
  revert k. induction s as [|c r IH]; intros [|k]; simpl; try reflexivity.
  apply IH.
Qed.

Lemma sub_match c r k :
  m (c :: r) = Some (S k) ->
  Re.sub m repl (c :: r) = repl ++ Re.sub m repl (drop k r).
Proof.
  intros H. unfold Re.sub at 1. simpl. rewrite H. by rewrite sub_from_drop.
Qed.

Lemma sub_copy c r :
  (forall k, m (c :: r) <> Some (S k)) ->
  Re.sub m repl (c :: r) = c :: Re.sub m repl r.
Proof.
  intros H. unfold Re.sub. simpl.
  destruct (m (c :: r)) as [[|k]|] eqn:E; try reflexivity.
  by destruct (H k).
Qed.

Lemma count_match c r k :
  m (c :: r) = Some (S k) ->
  Re.count m (c :: r) = S (Re.count m (drop k r)).
Proof.
  intros H. unfold Re.count at 1. simpl. rewrite H.
  by rewrite count_from_drop.
Qed.

Lemma count_copy c r :
  (forall k, m (c :: r) <> Some (S k)) ->
  Re.count m (c :: r) = Re.count m r.
Proof.
  intros H. unfold Re.count. simpl.
  destruct (m (c :: r)) as [[|k]|] eqn:E; try reflexivity.
  by destruct (H k).
Qed.

(** A match lies inside the text and has at least [least] characters;
    the replacement has at most [least + extra]. *)
Variables least extra : nat.
Hypothesis m_inside : forall s n, m s = Some n -> least <= n <= length s.
Hypothesis repl_short : length repl <= least + extra.

Lemma length_sub_from k s :
  k <= length s ->
  length (Re.sub_from m repl k s) + k
  <= length s + extra * Re.count_from m k s.
Proof.
  revert k. induction s as [|c r IH]; intros k Hk; simpl in *.
  - lia.
  - destruct k as [|k].
    + destruct (m (c :: r)) as [[|n]|] eqn:E.
      * specialize (IH 0). simpl. lia.
      * destruct (m_inside _ _ E) as [Hl Hn]. simpl in Hn.
        specialize (IH n). rewrite length_app. lia.
      * specialize (IH 0). simpl. lia.
    + specialize (IH k). lia.
Qed.

Lemma length_sub s :
  length (Re.sub m repl s) <= length s + extra * Re.count m s.
Proof.
  pose proof (length_sub_from 0 s). unfold Re.sub, Re.count. lia.
Qed.

End Substitution.

Lemma length_lstrip s : length (Py.lstrip s) <= length s.
Proof.
  induction s as [|c r IH]; simpl; [lia|]. case_match; simpl; lia.
Qed.

Lemma length_rstrip s : length (Py.rstrip s) <= length s.
Proof.
  unfold Py.rstrip. rewrite length_rev.
  etransitivity; [apply length_lstrip|]. by rewrite length_rev.
Qed.

Lemma length_strip s : length (Py.strip s) <= length s.
Proof.
  unfold Py.strip. etransitivity; [apply length_rstrip|apply length_lstrip].
Qed.

Lemma length_replace_char old new s :
  length new <= 1 -> length (Py.replace_char old new s) <= length s.
Proof.
  intros Hn. unfold Py.replace_char.
  induction s as [|c r IH]; simpl; [lia|].
  rewrite length_app. case_match; simpl; lia.
Qed.

Lemma length_replace_artifacts s :
  length (replace_artifacts s) <= length s.
Proof.
  unfold replace_artifacts.
  etransitivity; [apply length_replace_char; simpl; lia|].
  etransitivity; [apply length_replace_char; simpl; lia|].
  apply length_replace_char. simpl. lia.
Qed.

Lemma split_nl_cons s : exists h t, Py.split_nl s = h :: t.
Proof.
  destruct s as [|c r]; simpl; [by eexists _, _|].
  destruct (c =? 10)%N; [by eexists _, _|].
  destruct (Py.split_nl r); by eexists _, _.
Qed.

Lemma join_split_nl s : Py.join_nl (Py.split_nl s) = s.
Proof.
  induction s as [|c r IH]; simpl; [reflexivity|].
  destruct (split_nl_cons r) as (h & t & E). rewrite E in *.
  destruct (N.eqb_spec c 10) as [->|Hc].
  - rewrite <- IH. reflexivity.
  - rewrite <- IH. simpl. by destruct t.
Qed.

Lemma length_join_nl_map (f : str -> str) lines :
  (forall l, length (f l) <= length l) ->
  length (Py.join_nl (map f lines)) <= length (Py.join_nl lines).
Proof.
  intros Hf. induction lines as [|l [|l' rest] IH]; simpl in *.
  - lia.
  - apply Hf.
  - rewrite !length_app. simpl. specialize (Hf l). lia.
Qed.

Lemma length_strip_lines s :
  length (Py.strip (Py.join_nl (map Py.strip (Py.split_nl s)))) <= length s.
Proof.
  etransitivity; [apply length_strip|].
  etransitivity; [apply length_join_nl_map, length_strip|].
  by rewrite join_split_nl.
Qed.

(** *** The three patterns *)

Lemma word_ignorecase_length w s r :
  Re.word_ignorecase w s = Some r -> length s = length w + length r.
Proof.
  revert s. induction w as [|p w IH]; intros [|c s]; simpl;
    try discriminate; try (intros [= <-]; reflexivity).
  destruct (Re.lit_ignorecase p c); [|discriminate].
  intros Hw. by rewrite (IH _ Hw).
Qed.

Lemma email_placeholder_inside s n :
  Re.email_placeholder s = Some n -> 16 <= n <= length s.
Proof.
  unfold Re.email_placeholder.
  destruct (Re.word_ignorecase (py "[email") s) as [r1|] eqn:E1;
    [|discriminate].
  destruct (Re.word_ignorecase (py "protected]") (Py.lstrip r1))
    as [r2|] eqn:E2; [|discriminate].
  intros [= <-].
  apply word_ignorecase_length in E1, E2.
  pose proof (length_lstrip r1).
  change (length (py "[email")) with 6 in E1.
  change (length (py "protected]")) with 10 in E2. lia.
Qed.

Lemma run_length f s : Re.run f s <= length s.
Proof.
  induction s as [|c r IH]; simpl; [lia|]. case_match; simpl; lia.
Qed.

Lemma blanks_inside s n : Re.blanks s = Some n -> 2 <= n <= length s.
Proof.
  unfold Re.blanks. case_match eqn:E; [|discriminate]. intros [= <-].
  apply Nat.leb_le in E. split; [done|apply run_length].
Qed.

Lemma newlines_inside s n : Re.newlines s = Some n -> 3 <= n <= length s.
Proof.
  unfold Re.newlines. case_match eqn:E; [|discriminate]. intros [= <-].
  apply Nat.leb_le in E. split; [done|apply run_length].
Qed.

Lemma length_sub_blanks s :
  length (Re.sub Re.blanks (py " ") s) <= length s.
Proof.
  pose proof (length_sub Re.blanks (py " ") 2 0 blanks_inside) as H.
  specialize (H ltac:(simpl; lia) s). lia.
Qed.

Lemma length_sub_newlines s :
  length (Re.sub Re.newlines [10; 10]%N s) <= length s.
Proof.
  pose proof (length_sub Re.newlines [10; 10]%N 3 0 newlines_inside) as H.
  specialize (H ltac:(simpl; lia) s). lia.
Qed.

Lemma length_sub_email s :
  length (Re.sub Re.email_placeholder email_notice s)
  <= length s + 16 * Re.count Re.email_placeholder s.
Proof.
  apply (length_sub _ _ 16 16 email_placeholder_inside).
  vm_compute. lia.
Qed.

(** After the placeholders are replaced, the remaining steps of
    [clean_text] (blanks, newlines, stripping) do not lengthen the
    text. *)
Lemma length_after_substitutions s :
  length (Py.strip (Py.join_nl (map Py.strip (Py.split_nl
            (Re.sub Re.newlines [10; 10]%N
               (Re.sub Re.blanks (py " ") s))))))
  <= length s.
Proof.
  etransitivity; [apply length_strip_lines|].
  etransitivity; [apply length_sub_newlines|].
  apply length_sub_blanks.
Qed.

(** C4, as amended.  [clean_text] lengthens a text only by replacing
    e-mail placeholders: the notice has 32 characters and a placeholder
    at least 16, so the result has at most [16] more characters than the
    input for each placeholder replaced; every other step (the literal
    substitutions, the collapsing of blanks and newlines, the stripping)
    is non-expanding.  In particular a text without placeholder is never
    lengthened. *)
Theorem clean_text_length x :
  length (clean_text x) <= length x + 16 * placeholders x.
Proof.
  unfold clean_text, placeholders.
  destruct (negb (Py.truthy x)); [simpl; lia|].
  etransitivity; [apply length_after_substitutions|].
  etransitivity; [apply length_sub_email|].
  pose proof (length_replace_artifacts x). lia.
Qed.

(** C4, as stated, fails: the 17 characters of [[email protected]] become the
    32 characters of the notice. *)
Lemma clean_text_lengthens_placeholder :
  ~ (forall x, length (clean_text x) <= length x).
Proof.
  intros H. specialize (H (py "[email protected]")).
  vm_compute in H. lia.
Qed.

(** ** The placeholder scanner *)

(** The characters a pattern letter matches under [re.I]. *)
Lemma lit_ignorecase_cases p c :
  Re.lit_ignorecase p c = true ->
  (c = p \/ (c + 32 = p /\ 65 <= c <= 90) \/ c = 304 \/ c = 305
   \/ c = 383 \/ c = 8490)%N.
Proof.
  unfold Re.lit_ignorecase, Re.lower_simple.
  destruct (Py.is_upper c) eqn:Hu.
  - rewrite !orb_true_iff, !andb_true_iff, !N.eqb_eq.
    unfold Py.is_upper in Hu. apply andb_true_iff in Hu as [H1 H2].
    apply N.leb_le in H1, H2. lia.
  - destruct (N.eqb_spec c 304) as [->|H304]; [auto|].
    destruct (N.eqb_spec c 8490) as [->|H8490]; [auto 10|].
    rewrite !orb_true_iff, !andb_true_iff, !N.eqb_eq. lia.
Qed.

(** Decide a goal about one concrete pattern letter [p] and a character
    [c] known to match it, by going through the characters that match. *)
Ltac by_matching_chars H :=
  apply lit_ignorecase_cases in H;
  cbn in H;
  destruct H as [H | [[H _] | [H | [H | [H | H]]]]];
  [ subst
  | match type of H with
    | (?c + 32 = ?p)%N =>
      let E := fresh in
      assert (E : c = (p - 32)%N) by lia; cbn in E; subst c
    end
  | subst | subst | subst | subst ].

Lemma pattern_not_space q c :
  q < 16 -> Py.isspace c = true ->
  Re.lit_ignorecase (nth q Scan.pattern 0%N) c = false.
Proof.
  intros Hq Hc.
  destruct (Re.lit_ignorecase (nth q Scan.pattern 0%N) c) eqn:H;
    [exfalso|reflexivity].
  do 16 (destruct q as [|q];
         [by_matching_chars H; vm_compute in Hc; discriminate|]).
  lia.
Qed.

Lemma bracket_only c : Re.lit_ignorecase 91%N c = true -> c = 91%N.
Proof.
  intros H. pose proof H as H'.
  by_matching_chars H; try reflexivity; vm_compute in H'; discriminate.
Qed.

Lemma restart_space c : Py.isspace c = true -> Scan.restart c = 0.
Proof.
  intros Hc. unfold Scan.restart.
  destruct (Re.lit_ignorecase 91%N c) eqn:H; [|reflexivity].
  apply bracket_only in H. subst. vm_compute in Hc. discriminate.
Qed.

Lemma step_space q c : Py.isspace c = true -> Scan.step q c = Scan.settle q.
Proof.
  intros Hc. unfold Scan.step, Scan.settle.
  destruct (16 <=? q) eqn:Hq; [reflexivity|].
  apply Nat.leb_gt in Hq.
  rewrite Hc, andb_true_r.
  destruct (q =? 6); [reflexivity|].
  by rewrite pattern_not_space, restart_space.
Qed.

Lemma settle_settle q : Scan.settle (Scan.settle q) = Scan.settle q.
Proof.
  unfold Scan.settle.
  destruct (16 <=? q) eqn:Hq; [by rewrite Hq|].
  destruct (q =? 6) eqn:H6; reflexivity.
Qed.

Lemma found_settle q : Scan.found (Scan.settle q) = Scan.found q.
Proof.
  unfold Scan.settle, Scan.found.
  destruct (16 <=? q) eqn:Hq; [by rewrite Hq|].
  destruct (q =? 6); reflexivity.
Qed.

Lemma step_found q c : Scan.found q = true -> Scan.step q c = q.
Proof. unfold Scan.found, Scan.step. by intros ->. Qed.

Lemma run_found q s : Scan.found q = true -> Scan.run q s = q.
Proof.
  intros Hq. unfold Scan.run.
  induction s as [|c r IH]; simpl; [reflexivity|].
  by rewrite step_found.
Qed.

Lemma run_app q a b : Scan.run q (a ++ b) = Scan.run (Scan.run q a) b.
Proof. apply foldl_app. Qed.

Lemma run_cons q c s : Scan.run q (c :: s) = Scan.run (Scan.step q c) s.
Proof. reflexivity. Qed.

(** A bracket opens a match in every state. *)
Lemma step_bracket q : q < 16 -> Scan.step q 91%N = 1.
Proof.
  intros Hq.
  do 16 (destruct q as [|q]; [vm_compute; reflexivity|]). lia.
Qed.

(** A state below 16 never jumps over 16. *)
Lemma step_bound q c : q < 16 -> Scan.step q c <= 16.
Proof.
  intros Hq. unfold Scan.step, Scan.restart.
  repeat case_match; lia.
Qed.

(** *** The scanner and the pattern *)

Lemma lit_not_space q c :
  q < 16 -> Re.lit_ignorecase (nth q Scan.pattern 0%N) c = true ->
  Py.isspace c = false.
Proof.
  intros Hq H. destruct (Py.isspace c) eqn:Hc; [|reflexivity].
  by rewrite pattern_not_space in H.
Qed.

Lemma step_match q c :
  q < 16 -> Re.lit_ignorecase (nth q Scan.pattern 0%N) c = true ->
  Scan.step q c = S q.
Proof.
  intros Hq H. unfold Scan.step.
  apply Nat.leb_gt in Hq as Hq'. rewrite Hq'.
  by rewrite (lit_not_space q c), andb_false_r, H.
Qed.

(** Matching one more character of the pattern: what state [q] waits
    for at [c :: r] is what state [S q] waits for at [r]. *)
Lemma rest_match_cons q c r :
  q < 16 -> Re.lit_ignorecase (nth q Scan.pattern 0%N) c = true ->
  Scan.rest_match q (c :: r) =
  if q =? 15 then true else Scan.rest_match (S q) r.
Proof.
  intros Hq H. pose proof (lit_not_space q c Hq H) as Hc.
  do 16 (destruct q as [|q];
         [ cbv [Scan.pattern py map String.list_ascii_of_string nth
                Ascii.N_of_ascii N.add N.mul N.succ_double N.double
                Pos.succ] in H;
           unfold Scan.rest_match; cbn [Nat.ltb Nat.leb Nat.eqb Nat.sub];
           cbv [py map String.list_ascii_of_string drop
                Ascii.N_of_ascii N.add N.mul N.succ_double N.double
                Pos.succ];
           cbn [Re.word_ignorecase Py.lstrip];
           rewrite ?Hc, ?H; reflexivity |]).
  lia.
Qed.

Lemma rest_match_space c r :
  Py.isspace c = true -> Scan.rest_match 6 (c :: r) = Scan.rest_match 6 r.
Proof.
  intros Hc. unfold Scan.rest_match. cbn [Nat.ltb Nat.leb Nat.eqb Py.lstrip].
  by rewrite Hc.
Qed.

Lemma rest_match_0 s :
  Scan.rest_match 0 s = bool_decide (is_Some (Re.email_placeholder s)).
Proof.
  unfold Scan.rest_match, Re.email_placeholder.
  cbn [Nat.ltb Nat.leb]. rewrite drop_0.
  destruct (Re.word_ignorecase (py "[email") s) as [r1|];
    [|by rewrite bool_decide_eq_false_2 by (by intros [? ?])].
  destruct (Re.word_ignorecase (py "protected]") (Py.lstrip r1)) as [r2|].
  - by rewrite !bool_decide_eq_true_2 by eauto.
  - by rewrite !bool_decide_eq_false_2 by (by intros [? ?]).
Qed.

Lemma no_match_rest_match_0 s :
  Re.email_placeholder s = None -> Scan.rest_match 0 s = false.
Proof.
  intros H. rewrite rest_match_0, H.
  apply bool_decide_eq_false_2. by intros [? ?].
Qed.

(** Reading a word of the pattern advances the scanner by its length. *)
Lemma run_word w : forall k s r rest,
  drop k Scan.pattern = w ++ rest ->
  Re.word_ignorecase w s = Some r ->
  Scan.run k s = Scan.run (k + length w) r.
Proof.
  induction w as [|p w IH]; intros k s r rest Hk Hw.
  - simpl in Hw. injection Hw as ->. by rewrite Nat.add_0_r.
  - destruct s as [|c s]; [discriminate|]. simpl in Hw.
    destruct (Re.lit_ignorecase p c) eqn:Hl; [|discriminate].
    assert (Hlt : k < 16).
    { destruct (decide (k < 16)) as [|Hge]; [done|].
      rewrite drop_ge in Hk by (change (length Scan.pattern) with 16; lia).
      discriminate. }
    assert (Hp : nth k Scan.pattern 0%N = p).
    { rewrite nth_lookup, <- (Nat.add_0_r k), <- lookup_drop, Hk.
      reflexivity. }
    rewrite run_cons, step_match by (by rewrite ?Hp).
    rewrite (IH (S k) s r rest); [f_equal; simpl; lia| |done].
    replace (S k) with (k + 1) by lia.
    rewrite <- drop_drop, Hk. reflexivity.
Qed.

Lemma run_lstrip_6 s : Scan.run 6 (Py.lstrip s) = Scan.run 6 s.
Proof.
  induction s as [|c r IH]; [reflexivity|]. cbn [Py.lstrip].
  destruct (Py.isspace c) eqn:Hc; [|reflexivity].
  by rewrite IH, run_cons, step_space.
Qed.

(** Where the pattern matches, the scanner finds it, whatever it has
    read before. *)
Lemma match_found t n q :
  Re.email_placeholder t = Some n -> Scan.found (Scan.run q t) = true.
Proof.
  intros Hm.
  destruct (Scan.found q) eqn:Hq; [by rewrite run_found|].
  apply Nat.leb_gt in Hq.
  unfold Re.email_placeholder in Hm.
  destruct (Re.word_ignorecase (py "[email") t) as [r1|] eqn:E1;
    [|discriminate].
  destruct (Re.word_ignorecase (py "protected]") (Py.lstrip r1))
    as [r2|] eqn:E2; [|discriminate].
  destruct t as [|c t]; [discriminate|].
  change (py "[email") with (91%N :: py "email") in E1. simpl in E1.
  destruct (Re.lit_ignorecase 91%N c) eqn:Hb; [|discriminate].
  apply bracket_only in Hb. subst c.
  rewrite run_cons, step_bracket by done.
  rewrite (run_word (py "email") 1 t r1 (py "protected]")) by done.
  change (1 + length (py "email")) with 6.
  rewrite <- run_lstrip_6.
  rewrite (run_word (py "protected]") 6 _ r2 []) by done.
  change (6 + length (py "protected]")) with 16.
  by rewrite run_found.
Qed.

(** A text in which the scanner finds nothing is left alone by the
    placeholder substitution. *)
Lemma sub_email_clean_id s : forall q,
  Scan.found (Scan.run q s) = false ->
  Re.sub Re.email_placeholder email_notice s = s /\
  Re.count Re.email_placeholder s = 0.
Proof.
  induction s as [|c r IH]; intros q Hq; [done|].
  assert (Hno : forall k, Re.email_placeholder (c :: r) <> Some (S k)).
  { intros k Hm. by rewrite (match_found _ _ q Hm) in Hq. }
  rewrite sub_copy, count_copy by done.
  rewrite run_cons in Hq. destruct (IH _ Hq) as [-> ->]. done.
Qed.

Lemma run_notice q :
  q < 16 -> Scan.run q email_notice = 0.
Proof.
  intros Hq.
  do 16 (destruct q as [|q]; [vm_compute; reflexivity|]). lia.
Qed.

(** The substitution leaves no placeholder behind.  The scanner reads
    the output while the substitution reads the input [s]; between two
    replacements the scanner is in a state whose pending match cannot
    be completed by the input, and after a replacement it is idle. *)
Lemma sub_email_from_clean s : forall k q,
  q < 16 ->
  match k with
  | 0 => q <> 0 -> Scan.rest_match q s = false
  | S _ => q = 0
  end ->
  Scan.found
    (Scan.run q (Re.sub_from Re.email_placeholder email_notice k s)) = false.
Proof.
  induction s as [|c r IH]; intros k q Hq Hinv.
  - simpl. by apply Nat.leb_gt.
  - destruct k as [|k]; cbn [Re.sub_from].
    + destruct (Re.email_placeholder (c :: r)) as [[|n]|] eqn:Hm.
      * apply email_placeholder_inside in Hm. lia.
      * rewrite run_app, run_notice by done.
        apply IH; [lia|]. by destruct n.
      * rewrite run_cons.
        assert (Hrm : Scan.rest_match q (c :: r) = false).
        { destruct (decide (q = 0)) as [->|Hq0]; [|by apply Hinv].
          by apply no_match_rest_match_0. }
        unfold Scan.step. apply Nat.leb_gt in Hq as Hq'. rewrite Hq'.
        destruct ((q =? 6) && Py.isspace c) eqn:Hloop.
        { apply andb_true_iff in Hloop as [H6 Hc].
          apply Nat.eqb_eq in H6. subst q.
          apply IH; [done|]. intros _. by rewrite <- (rest_match_space c). }
        destruct (Re.lit_ignorecase (nth q Scan.pattern 0%N) c) eqn:Hl.
        { rewrite rest_match_cons in Hrm by done.
          destruct (q =? 15) eqn:H15; [discriminate|].
          apply Nat.eqb_neq in H15. apply IH; [lia|done]. }
        unfold Scan.restart.
        destruct (Re.lit_ignorecase 91%N c) eqn:Hb.
        { apply IH; [lia|]. intros _.
          pose proof (no_match_rest_match_0 _ Hm) as H0.
          by rewrite (rest_match_cons 0) in H0 by (done || lia). }
        apply IH; [lia|done].
    + subst q. apply IH; [lia|]. by destruct k.
Qed.

Lemma sub_email_clean s :
  Scan.has_placeholder (Re.sub Re.email_placeholder email_notice s) = false.
Proof. apply (sub_email_from_clean s 0 0); [lia|done]. Qed.

(** *** White space and the scanner *)

Lemma run_spaces s : forall q,
  Forall (fun c => Py.isspace c = true) s ->
  Scan.settle (Scan.run q s) = Scan.settle q.
Proof.
  induction s as [|c r IH]; intros q Hs; [reflexivity|].
  inversion Hs as [|? ? Hc Hr]; subst.
  by rewrite run_cons, IH, step_space, settle_settle.
Qed.

(** A run of white space of any positive length has the effect of one
    white-space character. *)
Lemma run_white_run (f : N -> bool) :
  (forall c, f c = true -> Py.isspace c = true) ->
  forall s q, 1 <= Re.run f s ->
              Scan.run q s = Scan.run (Scan.settle q) (drop (Re.run f s) s).
Proof.
  intros Hf. induction s as [|c r IH]; intros q Hn; simpl in Hn; [lia|].
  cbn [Re.run]. destruct (f c) eqn:Hc; [|lia].
  rewrite run_cons, step_space by auto. cbn [drop skipn].
  destruct (Re.run f r) as [|n] eqn:Hr.
  - by rewrite drop_0.
  - rewrite IH by lia. by rewrite settle_settle.
Qed.

Section WhiteSubstitution.

Variable m : str -> option nat.
Variable repl : str.
Hypothesis m_white : forall s n q,
  m s = Some (S n) ->
  Scan.run q s = Scan.run (Scan.settle q) (drop (S n) s).
Hypothesis repl_white : forall q, Scan.run q repl = Scan.settle q.

(** Replacing white space by white space does not change what the
    scanner sees. *)
Lemma run_sub_from s : forall k q,
  Scan.run q (Re.sub_from m repl k s) = Scan.run q (drop k s).
Proof.
  induction s as [|c r IH]; intros k q.
  - by destruct k.
  - destruct k as [|k]; cbn [Re.sub_from]; [|apply IH].
    rewrite drop_0.
    destruct (m (c :: r)) as [[|n]|] eqn:Hm.
    + by rewrite !run_cons, IH, drop_0.
    + rewrite run_app, repl_white, IH.
      by rewrite (m_white _ _ _ Hm).
    + by rewrite !run_cons, IH, drop_0.
Qed.

Lemma run_sub s q : Scan.run q (Re.sub m repl s) = Scan.run q s.
Proof. unfold Re.sub. by rewrite run_sub_from, drop_0. Qed.

End WhiteSubstitution.

Lemma run_sub_blanks s q :
  Scan.run q (Re.sub Re.blanks (py " ") s) = Scan.run q s.
Proof.
  apply run_sub.
  - intros s' n q' Hm. unfold Re.blanks in Hm.
    destruct (2 <=? _) eqn:Hn; [|discriminate].
    injection Hm as Hm. rewrite <- Hm.
    apply run_white_run; [|lia].
    intros c Hc. apply orb_true_iff in Hc as [Hc|Hc];
      apply N.eqb_eq in Hc; by subst.
  - intros q'. change (py " ") with [32%N].
    by rewrite run_cons, step_space.
Qed.

Lemma run_sub_newlines s q :
  Scan.run q (Re.sub Re.newlines [10; 10]%N s) = Scan.run q s.
Proof.
  apply run_sub.
  - intros s' n q' Hm. unfold Re.newlines in Hm.
    destruct (3 <=? _) eqn:Hn; [|discriminate].
    injection Hm as Hm. rewrite <- Hm.
    apply run_white_run; [|lia].
    intros c Hc. apply N.eqb_eq in Hc. by subst.
  - intros q'. by rewrite !run_cons, !step_space, settle_settle.
Qed.

(** *** Stripping and the scanner *)

Lemma settled_step_space q c :
  Scan.settle q = q -> Py.isspace c = true -> Scan.step q c = q.
Proof. intros Hq Hc. by rewrite step_space. Qed.

Lemma run_lstrip q s :
  Scan.settle q = q -> Scan.run q (Py.lstrip s) = Scan.run q s.
Proof.
  intros Hq. induction s as [|c r IH]; [reflexivity|]. cbn [Py.lstrip].
  destruct (Py.isspace c) eqn:Hc; [|reflexivity].
  by rewrite IH, run_cons, settled_step_space.
Qed.

(** [lstrip] removes a prefix of white space. *)
Lemma lstrip_split s :
  exists w, s = w ++ Py.lstrip s /\ Forall (fun c => Py.isspace c = true) w.
Proof.
  induction s as [|c r (w & Hw & Hall)]; [by exists []|]. cbn [Py.lstrip].
  destruct (Py.isspace c) eqn:Hc.
  - exists (c :: w). split; [simpl; by f_equal|by constructor].
  - by exists [].
Qed.

(** [rstrip] removes a suffix of white space. *)
Lemma rstrip_split s :
  exists w, s = Py.rstrip s ++ w /\ Forall (fun c => Py.isspace c = true) w.
Proof.
  unfold Py.rstrip.
  destruct (lstrip_split (rev s)) as (w & Hw & Hall).
  exists (rev w). split.
  - rewrite <- rev_app_distr, <- Hw. by rewrite rev_involutive.
  - by apply Forall_rev.
Qed.

Lemma run_rstrip q s :
  Scan.settle (Scan.run q (Py.rstrip s)) = Scan.settle (Scan.run q s).
Proof.
  destruct (rstrip_split s) as (w & Hw & Hall).
  rewrite Hw at 2. by rewrite run_app, (run_spaces w).
Qed.

Lemma run_strip q s :
  Scan.settle q = q ->
  Scan.settle (Scan.run q (Py.strip s)) = Scan.settle (Scan.run q s).
Proof.
  intros Hq. unfold Py.strip. by rewrite run_rstrip, run_lstrip.
Qed.

Lemma run_join_strip lines : forall q,
  Scan.settle q = q ->
  Scan.settle (Scan.run q (Py.join_nl (map Py.strip lines)))
  = Scan.settle (Scan.run q (Py.join_nl lines)).
Proof.
  induction lines as [|l [|l' rest] IH]; intros q Hq.
  - reflexivity.
  - by apply run_strip.
  - change (Py.join_nl (map Py.strip (l :: l' :: rest)))
      with (Py.strip l ++ 10%N :: Py.join_nl (map Py.strip (l' :: rest))).
    change (Py.join_nl (l :: l' :: rest))
      with (l ++ 10%N :: Py.join_nl (l' :: rest)).
    rewrite !run_app, !run_cons, !step_space by done.
    rewrite run_strip by done.
    apply IH, settle_settle.
Qed.

Lemma has_placeholder_strip s :
  Scan.has_placeholder (Py.strip s) = Scan.has_placeholder s.
Proof.
  unfold Scan.has_placeholder.
  rewrite <- (found_settle (Scan.run 0 (Py.strip s))).
  by rewrite run_strip, found_settle.
Qed.

Lemma has_placeholder_strip_lines s :
  Scan.has_placeholder
    (Py.strip (Py.join_nl (map Py.strip (Py.split_nl s))))
  = Scan.has_placeholder s.
Proof.
  rewrite has_placeholder_strip. unfold Scan.has_placeholder.
  rewrite <- found_settle, run_join_strip by done.
  by rewrite join_split_nl, found_settle.
Qed.

Lemma has_placeholder_take n s :
  Scan.has_placeholder s = false -> Scan.has_placeholder (take n s) = false.
Proof.
  unfold Scan.has_placeholder. intros H.
  destruct (Scan.found (Scan.run 0 (take n s))) eqn:E; [|reflexivity].
  rewrite <- (take_drop n s), run_app, run_found in H by done. congruence.
Qed.

(** *** Artifact characters *)

Lemma Forall_sub_from (P : N -> Prop) m repl s : forall k,
  Forall P repl -> Forall P s -> Forall P (Re.sub_from m repl k s).
Proof.
  intros k Hrepl. revert k.
  induction s as [|c r IH]; intros k Hs; [constructor|].
  inversion Hs as [|? ? Hc Hr]; subst. cbn [Re.sub_from].
  destruct k as [|k]; [|by apply IH].
  destruct (m (c :: r)) as [[|n]|].
  - constructor; auto.
  - apply Forall_app. auto.
  - constructor; auto.
Qed.

Lemma Forall_lstrip (P : N -> Prop) s : Forall P s -> Forall P (Py.lstrip s).
Proof.
  induction 1 as [|c r Hc Hr IH]; [constructor|]. cbn [Py.lstrip].
  destruct (Py.isspace c); [done|by constructor].
Qed.

Lemma Forall_strip (P : N -> Prop) s : Forall P s -> Forall P (Py.strip s).
Proof.
  intros H. unfold Py.strip, Py.rstrip.
  by apply Forall_rev, Forall_lstrip, Forall_rev, Forall_lstrip.
Qed.

Lemma Forall_split_nl (P : N -> Prop) s :
  Forall P s -> Forall (Forall P) (Py.split_nl s).
Proof.
  induction 1 as [|c r Hc Hr IH]; [by repeat constructor|].
  cbn [Py.split_nl]. destruct (c =? 10)%N; [by repeat constructor|].
  destruct (Py.split_nl r) as [|h t]; [by repeat constructor|].
  inversion IH; subst. by repeat constructor.
Qed.

Lemma Forall_join_nl (P : N -> Prop) lines :
  P 10%N -> Forall (Forall P) lines -> Forall P (Py.join_nl lines).
Proof.
  intros Hnl. induction 1 as [|l rest Hl Hrest IH]; [constructor|].
  destruct rest as [|l' rest]; [done|].
  change (Py.join_nl (l :: l' :: rest))
    with (l ++ 10%N :: Py.join_nl (l' :: rest)).
  apply Forall_app. split; [done|by constructor].
Qed.

Lemma replace_artifacts_cons c s :
  replace_artifacts (c :: s) = replace_artifacts [c] ++ replace_artifacts s.
Proof.
  unfold replace_artifacts, Py.replace_char.
  change (c :: s) with ([c] ++ s). by rewrite !flat_map_app.
Qed.

Lemma replace_artifacts_one c :
  replace_artifacts [c] =
  if (c =? 160)%N then [32%N]
  else if (c =? 194)%N then []
  else if (c =? 183)%N then [8226%N] else [c].
Proof.
  unfold replace_artifacts, Py.replace_char. cbn [flat_map app].
  destruct (N.eqb_spec c 160) as [->|H1]; [reflexivity|].
  cbn [flat_map app].
  destruct (N.eqb_spec c 194) as [->|H2]; [reflexivity|].
  cbn [flat_map app].
  destruct (N.eqb_spec c 183) as [->|H3]; reflexivity.
Qed.

Lemma replace_artifacts_free s :
  Forall (fun c => artifact c = false) (replace_artifacts s).
Proof.
  induction s as [|c r IH]; [constructor|].
  rewrite replace_artifacts_cons. apply Forall_app. split; [|done].
  rewrite replace_artifacts_one. unfold artifact.
  destruct (N.eqb_spec c 160) as [->|H1]; [by repeat constructor|].
  destruct (N.eqb_spec c 194) as [->|H2]; [by repeat constructor|].
  destruct (N.eqb_spec c 183) as [->|H3]; [by repeat constructor|].
  repeat constructor.
  by rewrite !orb_false_iff, !N.eqb_neq.
Qed.

Lemma replace_artifacts_id s :
  Forall (fun c => artifact c = false) s -> replace_artifacts s = s.
Proof.
  induction 1 as [|c r Hc Hr IH]; [reflexivity|].
  rewrite replace_artifacts_cons, IH, replace_artifacts_one.
  unfold artifact in Hc. rewrite !orb_false_iff in Hc.
  destruct Hc as [[-> ->] ->]. reflexivity.
Qed.

(** *** [clean_text] returns tidy text and does not lengthen tidy text *)

Lemma tidy_nil : tidy [].
Proof. split; [constructor|reflexivity]. Qed.

Lemma clean_text_tidy x : tidy (clean_text x).
Proof.
  unfold clean_text.
  destruct (negb (Py.truthy x)); [apply tidy_nil|].
  split.
  - apply Forall_strip, Forall_join_nl; [reflexivity|].
    apply Forall_map, Forall_forall. intros l Hl.
    apply Forall_strip. revert l Hl. apply Forall_forall.
    apply Forall_split_nl.
    unfold Re.sub. repeat apply Forall_sub_from;
      try (vm_compute; by repeat constructor).
    apply replace_artifacts_free.
  - rewrite has_placeholder_strip_lines. unfold Scan.has_placeholder.
    rewrite run_sub_newlines, run_sub_blanks.
    apply sub_email_clean.
Qed.

Lemma clean_text_tidy_length s : tidy s -> length (clean_text s) <= length s.
Proof.
  intros [Hart Hscan]. unfold clean_text.
  destruct (negb (Py.truthy s)); [simpl; lia|].
  rewrite (replace_artifacts_id s) by done.
  destruct (sub_email_clean_id s 0 Hscan) as [-> _].
  apply length_after_substitutions.
Qed.

Lemma tidy_strip s : tidy s -> tidy (Py.strip s).
Proof.
  intros [Hart Hscan]. split; [by apply Forall_strip|].
  by rewrite has_placeholder_strip.
Qed.

Lemma tidy_take n s : tidy s -> tidy (take n s).
Proof.
  intros [Hart Hscan]. split; [by apply Forall_take|].
  by apply has_placeholder_take.
Qed.

(** Two tidy texts joined by a separator that returns the scanner to
    its idle state. *)
Lemma tidy_join a sep b :
  Forall (fun c => artifact c = false) sep ->
  (forall q, q < 16 -> Scan.run q sep = 0) ->
  tidy a -> tidy b -> tidy (a ++ sep ++ b).
Proof.
  intros Hsep Hidle [Ha Hsa] [Hb Hsb]. split.
  - by rewrite !Forall_app.
  - unfold Scan.has_placeholder in *.
    rewrite !run_app, Hidle; [done|]. by apply Nat.leb_gt.
Qed.


Lemma run_skills_marker q : q < 16 -> Scan.run q skills_marker = 0.
Proof.
  intros Hq.
  do 16 (destruct q as [|q]; [vm_compute; reflexivity|]). lia.
Qed.

Lemma run_responsibilities_marker q :
  q < 16 -> Scan.run q responsibilities_marker = 0.
Proof.
  intros Hq.
  do 16 (destruct q as [|q]; [vm_compute; reflexivity|]). lia.
Qed.


Lemma full_desc_tidy (j : job) : sections_tidy j -> tidy (full_desc j).
Proof.
  intros (Hd & Hq & Hr). unfold full_desc.
  assert (Hd' : tidy (Py.or (j !!! "description") [])).
  { unfold Py.or. by destruct (Py.truthy _); [|apply tidy_nil]. }
  set (d := Py.or (j !!! "description") []) in *.
  assert (Hdq : tidy (if Py.truthy (j !!! "qualifications")
                      then d ++ [nl; nl]
                           ++ py "=== Skills & Qualifications ==="
                           ++ [nl] ++ j !!! "qualifications"
                      else d)).
  { destruct (Py.truthy (j !!! "qualifications")); [|done].
    change (tidy (d ++ skills_marker ++ j !!! "qualifications")).
    apply tidy_join; auto using run_skills_marker.
    vm_compute. by repeat constructor. }
  destruct (Py.truthy (j !!! "responsibilities")); [|done].
  match goal with
  | |- tidy (?dq ++ _) =>
    change (tidy (dq ++ responsibilities_marker ++ j !!! "responsibilities"))
  end.
  apply tidy_join; auto using run_responsibilities_marker.
  vm_compute. by repeat constructor.
Qed.

Lemma capped_desc_tidy (j : job) : sections_tidy j -> tidy (capped_desc j).
Proof.
  intros H. unfold capped_desc. by apply tidy_take, tidy_strip, full_desc_tidy.
Qed.

Lemma capped_desc_length (j : job) : length (capped_desc j) <= 3000.
Proof. unfold capped_desc. rewrite length_take. lia. Qed.

(** *** The sections through the resolver chain *)


Ltac other_key Hk :=
  rewrite ?lookup_total_insert_ne
    by (intros <-; destruct Hk as [?|[?|?]]; discriminate).

Lemma foldl_key {A} (f : job -> A -> job) k (l : list A) : forall j : job,
  (forall j x, f j x !!! k = j !!! k) -> foldl f j l !!! k = j !!! k.
Proof.
  induction l as [|x l IH]; intros j Hf; simpl; [reflexivity|].
  by rewrite IH, Hf.
Qed.

Lemma read_posting_key (j : job) item k :
  section_key k -> read_posting j item !!! k = j !!! k.
Proof.
  intros Hk. unfold read_posting. repeat case_match; by other_key Hk.
Qed.

Lemma method1_json_ld_key pg (j : job) k :
  section_key k -> method1_json_ld pg j !!! k = j !!! k.
Proof.
  intros Hk. unfold method1_json_ld. apply foldl_key.
  intros j' [|items]; simpl; [reflexivity|].
  apply foldl_key. intros. by apply read_posting_key.
Qed.

Lemma fill_if_empty_key key found (j : job) k :
  key <> k -> fill_if_empty key found j !!! k = j !!! k.
Proof.
  intros Hk. unfold fill_if_empty.
  repeat case_match; by rewrite ?lookup_total_insert_ne.
Qed.

Lemma method2_raw_html_key pg (j : job) k :
  section_key k -> method2_raw_html pg j !!! k = j !!! k.
Proof.
  intros Hk. unfold method2_raw_html.
  rewrite !fill_if_empty_key;
    by (reflexivity || (intros <-; destruct Hk as [?|[?|?]]; discriminate)).
Qed.

Lemma method3_heading_key pg (j : job) k :
  section_key k -> method3_heading pg j !!! k = j !!! k.
Proof.
  intros Hk. unfold method3_heading. case_match; by other_key Hk.
Qed.

Lemma method4_company_link_key pg (j : job) k :
  section_key k -> method4_company_link pg j !!! k = j !!! k.
Proof.
  intros Hk. unfold method4_company_link. repeat case_match; by other_key Hk.
Qed.

Lemma grid_label_key line k field :
  section_key k -> grid_label grid_label_map line = Some field -> field <> k.
Proof.
  intros Hk. unfold grid_label_map. cbn [map grid_label fst snd].
  repeat case_match; intros [= <-] <-;
    destruct Hk as [?|[?|?]]; discriminate.
Qed.

Lemma grid_step_key lines (j : job) i k :
  section_key k -> grid_step lines j i !!! k = j !!! k.
Proof.
  intros Hk. unfold grid_step.
  destruct (lines !! i) as [line|]; [|reflexivity].
  destruct (grid_label grid_label_map _) as [field|] eqn:Hf; [|reflexivity].
  repeat case_match; try reflexivity.
  apply lookup_total_insert_ne. by eapply grid_label_key.
Qed.

Lemma parse_job_details_section_key h2 (j : job) k :
  section_key k -> parse_job_details_section h2 j !!! k = j !!! k.
Proof.
  intros Hk. unfold parse_job_details_section, grid_scan.
  apply foldl_key. intros. by apply grid_step_key.
Qed.

Lemma body_label_key line k field :
  section_key k -> body_label body_label_map line = Some field -> field <> k.
Proof.
  intros Hk. unfold body_label_map. cbn [map body_label fst snd].
  repeat case_match; intros [= <-] <-;
    destruct Hk as [?|[?|?]]; discriminate.
Qed.

Lemma body_step_key lines (j : job) i k :
  section_key k -> body_step lines j i !!! k = j !!! k.
Proof.
  intros Hk. unfold body_step.
  destruct (lines !! i) as [line|]; [|reflexivity].
  destruct (body_label body_label_map _) as [field|] eqn:Hf; [|reflexivity].
  repeat case_match; try reflexivity.
  apply lookup_total_insert_ne. by eapply body_label_key.
Qed.

Lemma fallback_body_lines_key pg (j : job) k :
  section_key k -> fallback_body_lines pg j !!! k = j !!! k.
Proof.
  intros Hk. unfold fallback_body_lines.
  apply foldl_key. intros. by apply body_step_key.
Qed.

Lemma fallback_inline_deadline_key pg (j : job) k :
  section_key k -> fallback_inline_deadline pg j !!! k = j !!! k.
Proof.
  intros Hk. unfold fallback_inline_deadline.
  repeat case_match; by other_key Hk.
Qed.

(** A section is either left alone or replaced by the result of
    [collect_section], that is, of [clean_text]. *)
Lemma read_section_tidy (j : job) h2 :
  sections_tidy j -> sections_tidy (read_section j h2).
Proof.
  intros (Hd & Hq & Hr). unfold read_section, sections_tidy.
  pose proof (clean_text_tidy
    (take 2000 (Py.strip (Py.join_nl (section_content (h_siblings h2))))))
    as Hc.
  fold (collect_section h2) in Hc.
  repeat case_match;
    rewrite ?parse_job_details_section_key by (unfold section_key; auto);
    rewrite ?lookup_total_insert_eq;
    rewrite ?lookup_total_insert_ne by discriminate;
    rewrite ?lookup_total_insert_eq;
    auto.
Qed.

Lemma method5_sections_tidy pg (j : job) :
  sections_tidy j -> sections_tidy (method5_sections pg j).
Proof.
  unfold method5_sections. generalize (pg_h2 pg). intros hs. revert j.
  induction hs as [|h2 hs IH]; intros j Hj; simpl; [done|].
  by apply IH, read_section_tidy.
Qed.

Lemma sections_tidy_keys (j j' : job) :
  (forall k, section_key k -> j' !!! k = j !!! k) ->
  sections_tidy j -> sections_tidy j'.
Proof.
  intros H (Hd & Hq & Hr). unfold sections_tidy.
  rewrite !H by (unfold section_key; auto). auto.
Qed.

Lemma initial_job_tidy url : sections_tidy (initial_job url).
Proof.
  unfold sections_tidy, initial_job.
  rewrite !lookup_total_insert_ne by discriminate.
  rewrite lookup_total_insert_eq.
  rewrite !lookup_total_insert_ne by discriminate.
  rewrite lookup_total_insert_eq.
  rewrite !lookup_total_insert_ne by discriminate.
  rewrite lookup_total_insert_eq.
  auto using tidy_nil.
Qed.

Lemma resolve_fields_tidy pg url :
  sections_tidy (resolve_fields pg (initial_job url)).
Proof.
  unfold resolve_fields.
  eapply sections_tidy_keys;
    [intros; by apply fallback_inline_deadline_key|].
  eapply sections_tidy_keys;
    [intros; by apply fallback_body_lines_key|].
  apply method5_sections_tidy.
  eapply sections_tidy_keys;
    [intros; by apply method4_company_link_key|].
  eapply sections_tidy_keys;
    [intros; by apply method3_heading_key|].
  eapply sections_tidy_keys;
    [intros; by apply method2_raw_html_key|].
  eapply sections_tidy_keys;
    [intros; by apply method1_json_ld_key|].
  apply initial_job_tidy.
Qed.

(** *** The assembled description *)

Lemma assemble_description (j : job) :
  assemble j !!! "description" = clean_text (clean_text (capped_desc j)).
Proof.
  unfold assemble, clean_fields, cleaned_keys. cbn [foldl].
  rewrite !lookup_total_insert_ne by discriminate.
  rewrite lookup_total_insert_eq.
  rewrite !lookup_insert_ne by discriminate.
  unfold set_country. rewrite lookup_insert_ne by discriminate.
  unfold fix_type.
  assert (Hc : combine_description j !! "description"
               = Some (clean_text (capped_desc j))).
  { unfold combine_description. by rewrite lookup_insert_eq. }
  case_match; rewrite ?lookup_insert_ne by discriminate; by rewrite Hc.
Qed.

(** C3. The description of every record that [scrape_job_page]
    assembles has at most 3000 characters.  The text is cut to 3000
    characters before [clean_text] is applied (once when the sections
    are combined, once more with the other text fields), and
    [clean_text] lengthens a text only where it replaces an e-mail
    placeholder; the three sections come from [collect_section], hence
    from [clean_text], which leaves no placeholder behind, and neither
    the section markers nor the cut can create one.  (The assembly
    steps alone would not give the bound: on a description that still
    held placeholders [clean_text] could lengthen the cut text.) *)
Theorem description_length url pg (j : job) :
  scrape_job_page url (Some pg) = Some j ->
  length (j !!! "description") <= 3000.
Proof.
  intros [= <-]. rewrite assemble_description.
  pose proof (resolve_fields_tidy pg url) as Hr.
  pose proof (capped_desc_tidy _ Hr) as Hc.
  pose proof (capped_desc_length (resolve_fields pg (initial_job url))).
  pose proof (clean_text_tidy_length _ Hc).
  pose proof (clean_text_tidy_length _ (clean_text_tidy
    (capped_desc (resolve_fields pg (initial_job url))))).
  lia.
Qed.

Lemma description_length_witness :
  exists j : job,
    scrape_job_page sample_url (Some page_long_sections) = Some j /\
    length (j !!! "description") <= 3000.
Proof.
  eexists. split; [reflexivity|].
  exact (description_length sample_url page_long_sections _ eq_refl).
Defined.

(** Scenario 3 of the specification: a combined description of 3000
    characters or more is cut to exactly 3000 before [clean_text]. *)
Lemma capped_desc_exact (j : job) :
  3000 <= length (Py.strip (full_desc j)) -> length (capped_desc j) = 3000.
Proof. intros H. unfold capped_desc. rewrite length_take. lia. Qed.

(** ** [decode_cf_email]: round trip *)

(** The 256 bytes, for checks by enumeration. *)
Lemma byte_cases (P : N -> bool) :
  forallb P (map N.of_nat (seq 0 256)) = true ->
  forall b, (b < 256)%N -> P b = true.
Proof.
  intros H b Hb. rewrite forallb_forall in H. apply H.
  apply in_map_iff. exists (N.to_nat b). split; [lia|].
  apply in_seq. lia.
Qed.

Lemma parse_hex2 b :
  (b < 256)%N -> Int16.parse (hex2 b) = Return (Z.of_N b).
Proof.
  intros Hb.
  pose proof (byte_cases
    (fun b => match Int16.parse (hex2 b) with
              | Return z => Z.eqb z (Z.of_N b)
              | Raise _ => false
              end)) as H.
  specialize (H ltac:(vm_compute; reflexivity) b Hb). cbv beta in H.
  destruct (Int16.parse (hex2 b)) as [e|z]; [discriminate|].
  apply Z.eqb_eq in H. by subst.
Qed.

Lemma lxor_byte a b : (a < 256 -> b < 256 -> N.lxor a b < 256)%N.
Proof.
  intros Ha Hb.
  destruct (N.eq_dec (N.lxor a b) 0%N) as [->|Hx]; [lia|].
  change 256%N with (2 ^ 8)%N. apply N.log2_lt_pow2; [lia|].
  pose proof (N.log2_lxor a b) as Hl.
  assert (N.log2 a < 8)%N.
  { destruct (N.eq_dec a 0%N) as [->|]; [by vm_compute|].
    apply N.log2_lt_pow2; [lia|]. by change (2 ^ 8)%N with 256%N. }
  assert (N.log2 b < 8)%N.
  { destruct (N.eq_dec b 0%N) as [->|]; [by vm_compute|].
    apply N.log2_lt_pow2; [lia|]. by change (2 ^ 8)%N with 256%N. }
  lia.
Qed.

(** Decoding one group gives back the character. *)
Lemma decode_group key c :
  (key < 256)%N -> (c < 256)%N ->
  (g ← Int16.parse (hex2 (N.lxor c key)); chr (Z.lxor g (Z.of_N key)))
  = Return c.
Proof.
  intros Hk Hc.
  rewrite parse_hex2 by (by apply lxor_byte). cbn [mbind result_bind].
  rewrite <- N2Z.inj_lxor, N.lxor_assoc, N.lxor_nilpotent, N.lxor_0_r.
  unfold chr.
  replace ((0 <=? Z.of_N c) && (Z.of_N c <? 1114112))%Z with true
    by (symmetry; apply andb_true_iff; split; [apply Z.leb_le|apply Z.ltb_lt]; lia).
  by rewrite N2Z.id.
Qed.

Lemma slice_after pre x rest :
  length x = 2 ->
  slice (pre ++ x ++ rest) (length pre) (length pre + 2) = x.
Proof.
  intros Hx. unfold slice.
  replace (length pre + 2 - length pre) with 2 by lia.
  rewrite drop_app_length. rewrite take_app_length'; done.
Qed.

Lemma decode_groups key text : forall pre m,
  (key < 256)%N -> Forall (fun c => (c < 256)%N) text ->
  length pre = 2 * m ->
  for_each
    (fun i => g ← Int16.parse
                   (slice (pre ++ flat_map (fun c => hex2 (N.lxor c key)) text)
                          i (i + 2));
              chr (Z.lxor g (Z.of_N key)))
    (map (fun k => 2 * m + 2 * k) (seq 0 (length text)))
  = Return text.
Proof.
  induction text as [|c r IH]; intros pre m Hk Hall Hpre; [reflexivity|].
  inversion Hall as [|? ? Hc Hr]; subst.
  cbn [length seq map for_each flat_map].
  replace (2 * m + 2 * 0) with (length pre) by lia.
  rewrite slice_after by reflexivity.
  rewrite decode_group by done. cbn [mbind result_bind].
  rewrite <- seq_shift, map_map.
  rewrite (map_ext _ (fun k => 2 * S m + 2 * k)) by (intros; lia).
  rewrite app_assoc.
  rewrite (IH (pre ++ hex2 (N.lxor c key)) (S m)); try done.
  rewrite length_app. simpl. lia.
Qed.

Lemma length_encode_cf_email key text :
  length (encode_cf_email key text) = 2 + 2 * length text.
Proof.
  unfold encode_cf_email. rewrite length_app. cbn [length hex2].
  induction text as [|c r IH]; simpl in *; [reflexivity|]. lia.
Qed.

(** X1. Round trip: a text of byte-sized characters, encoded with a
    one-byte key the way the docstring describes (two hexadecimal
    digits per byte, key first, every character XOR the key), is decoded
    to itself. *)
Theorem decode_encode_cf_email key text :
  (key < 256)%N -> Forall (fun c => (c < 256)%N) text ->
  decode_cf_email (encode_cf_email key text) = Return text.
Proof.
  intros Hk Hall. unfold decode_cf_email, decode_cf_email_body.
  rewrite length_encode_cf_email. unfold encode_cf_email.
  set (body := flat_map (fun c => hex2 (N.lxor c key)) text).
  assert (Hkey : slice (hex2 key ++ body) 0 2 = hex2 key)
    by apply (slice_after [] (hex2 key) body eq_refl).
  rewrite Hkey, parse_hex2 by done. cbn [mbind result_bind].
  unfold range_by_2.
  replace ((2 + 2 * length text - 2 + 1) / 2) with (length text).
  2:{ replace (2 + 2 * length text - 2 + 1) with (1 + length text * 2) by lia.
      by rewrite Nat.div_add. }
  subst body.
  pose proof (decode_groups key text (hex2 key) 1 Hk Hall eq_refl) as H.
  change (2 * 1) with 2 in H. by rewrite H.
Qed.

Lemma decode_encode_cf_email_witness :
  decode_cf_email (encode_cf_email 42 (py "a@b.so")) = Return (py "a@b.so").
Proof.
  apply decode_encode_cf_email; [reflexivity|].
  repeat constructor.
Defined.

(** X2. Whatever string it is given, [decode_cf_email] returns a string
    and raises nothing: the only exception its body can raise is
    [ValueError], which the [except] clause turns into the empty
    string. *)
Theorem decode_cf_email_returns encoded :
  decode_cf_email encoded =
  Return match decode_cf_email_body encoded with
         | Return s => s
         | Raise _ => []
         end.
Proof.
  unfold decode_cf_email.
  destruct (decode_cf_email_body encoded) as [e|s] eqn:E; [|reflexivity].
  by rewrite (decode_cf_email_body_raises _ _ E).
Qed.

Lemma length_for_each {A B} (f : A -> result B) l bs :
  for_each f l = Return bs -> length bs = length l.
Proof.
  revert bs. induction l as [|a l IH]; intros bs; simpl.
  - by intros [= <-].
  - destruct (f a) as [e|b]; [discriminate|]. cbn [mbind result_bind].
    destruct (for_each f l) as [e|bs']; [discriminate|].
    cbn [mbind result_bind mret result_ret]. intros [= <-].
    simpl. f_equal. by apply IH.
Qed.

(** X3. A decoded text has one character for each group after the key,
    the last group being a single digit when the length is odd: for an
    input of [n] characters that is [(n - 1) / 2] characters, unless the
    result is empty. *)
Theorem decode_cf_email_length encoded s :
  decode_cf_email encoded = Return s ->
  s = [] \/ length s = (length encoded - 1) / 2.
Proof.
  unfold decode_cf_email.
  destruct (decode_cf_email_body encoded) as [e|s'] eqn:E.
  - destruct e; intros [= <-]; by left.
  - intros [= <-]. right. unfold decode_cf_email_body in E.
    destruct (Int16.parse (slice encoded 0 2)) as [e|key]; [discriminate|].
    cbn [mbind result_bind] in E.
    apply length_for_each in E. rewrite E.
    unfold range_by_2. rewrite length_map, length_seq.
    destruct (length encoded) as [|[|n]]; [reflexivity..|].
    f_equal. lia.
Qed.

Lemma decode_cf_email_length_witness :
  [17%N] = [] \/ length [17%N] = (length (py "123") - 1) / 2.
Proof.
  apply (decode_cf_email_length (py "123") [17%N]). reflexivity.
Defined.

(** ** [SeenTracker]: marking, saving, loading *)

Section Tracker.

Variable md5_hexdigest : str -> str.
Implicit Types (self : SeenTracker) (urls : list str) (u v now : str).


Lemma is_seen_true self u :
  is_seen md5_hexdigest self u = true <-> is_Some (seen self !! job_uid md5_hexdigest u).
Proof. unfold is_seen. apply bool_decide_eq_true. Qed.

Lemma mark_seen_other now self u v :
  job_uid md5_hexdigest v <> job_uid md5_hexdigest u ->
  is_seen md5_hexdigest (mark_seen md5_hexdigest now self u) v
  = is_seen md5_hexdigest self v.
Proof.
  intros Hne. unfold is_seen, mark_seen. cbn [seen].
  by rewrite lookup_insert_ne.
Qed.

(** X4. After [mark_seen(u)] a URL [v] is seen exactly when it has the
    identifier of [u] or was seen before: [u] itself is seen, nothing
    seen is forgotten, and no other identifier becomes seen. *)
Theorem mark_seen_is_seen now self u v :
  is_seen md5_hexdigest (mark_seen md5_hexdigest now self u) v
  = bool_decide (job_uid md5_hexdigest v = job_uid md5_hexdigest u)
    || is_seen md5_hexdigest self v.
Proof.
  case_bool_decide as Huid; cbn [orb].
  - unfold is_seen, mark_seen. cbn [seen].
    apply bool_decide_eq_true. rewrite Huid, lookup_insert_eq. by eexists.
  - by apply mark_seen_other.
Qed.

Lemma filter_new_filter self urls :
  filter_new md5_hexdigest self urls = filter (fun u => is_seen md5_hexdigest self u = false) urls.
Proof.
  induction urls as [|u urls IH]; [reflexivity|]. cbn [filter_new].
  rewrite filter_cons, IH.
  destruct (is_seen md5_hexdigest self u); simpl; try case_decide; done.
Qed.

(** X5. Once [u] is marked, [filter_new] lets through exactly the URLs
    it let through before whose identifier is not that of [u]; in
    particular [u] itself is filtered out. *)
Theorem filter_new_mark_seen now self u urls :
  filter_new md5_hexdigest (mark_seen md5_hexdigest now self u) urls
  = filter (fun v => job_uid md5_hexdigest v <> job_uid md5_hexdigest u) (filter_new md5_hexdigest self urls) /\
  u ∉ filter_new md5_hexdigest (mark_seen md5_hexdigest now self u) urls.
Proof.
  assert (Heq : filter_new md5_hexdigest (mark_seen md5_hexdigest now self u) urls
    = filter (fun v => job_uid md5_hexdigest v <> job_uid md5_hexdigest u) (filter_new md5_hexdigest self urls)).
  { induction urls as [|v urls IH]; [reflexivity|].
    cbn [filter_new]. rewrite IH.
    destruct (decide (job_uid md5_hexdigest v = job_uid md5_hexdigest u)) as [Heq|Hne].
    - assert (Hs : is_seen md5_hexdigest (mark_seen md5_hexdigest now self u) v = true).
      { unfold is_seen, mark_seen. cbn [seen].
        apply bool_decide_eq_true. rewrite Heq, lookup_insert_eq.
        by eexists. }
      rewrite Hs. cbn [negb].
      destruct (is_seen md5_hexdigest self v); cbn [negb]; [done|].
      rewrite filter_cons. by case_decide.
    - rewrite (mark_seen_other now self u v Hne).
      destruct (is_seen md5_hexdigest self v); cbn [negb]; [done|].
      rewrite filter_cons. by case_decide. }
  split; [done|]. rewrite Heq. intros Hin.
  apply list_elem_of_filter in Hin as [Hne _]. by apply Hne.
Qed.

(** Filtering twice is filtering once, and the filtered list only
    holds URLs that are not seen. *)
Lemma filter_new_idempotent self urls :
  filter_new md5_hexdigest self (filter_new md5_hexdigest self urls) = filter_new md5_hexdigest self urls /\
  Forall (fun u => is_seen md5_hexdigest self u = false) (filter_new md5_hexdigest self urls).
Proof.
  assert (Hall : Forall (fun u => is_seen md5_hexdigest self u = false)
                        (filter_new md5_hexdigest self urls)).
  { rewrite filter_new_filter. apply Forall_forall.
    intros u Hu. by apply list_elem_of_filter in Hu as [? _]. }
  split; [|done].
  induction Hall as [|u l Hu Hl IH]; [reflexivity|].
  cbn [filter_new]. rewrite Hu. cbn [negb]. by rewrite IH.
Qed.


(** A tracker made from a missing or unreadable file has seen nothing
    and filters nothing out. *)
Lemma new_tracker_missing path cutoff urls :
  filter_new md5_hexdigest (new_tracker path None cutoff) urls = urls.
Proof.
  induction urls as [|u urls IH]; [reflexivity|].
  cbn [filter_new]. rewrite IH.
  unfold is_seen, new_tracker, _load. cbn [seen].
  rewrite bool_decide_eq_false_2; [done|].
  rewrite lookup_empty. by intros [? ?].
Qed.

(** X7. Mark, save, reload: a URL marked at time [now] is still seen
    by the tracker made from the saved file, provided [now] is later
    than the cutoff of the reload; every URL seen after the reload was
    seen before the save. *)
Theorem reload_after_mark path now cutoff self u :
  str_ltb cutoff now = true ->
  let reloaded :=
    new_tracker path (Some (save (mark_seen md5_hexdigest now self u))) cutoff in
  is_seen md5_hexdigest reloaded u = true /\
  (forall v, is_seen md5_hexdigest reloaded v = true ->
             is_seen md5_hexdigest (mark_seen md5_hexdigest now self u) v = true).
Proof.
  intros Hnow reloaded. subst reloaded.
  unfold new_tracker, save, is_seen. cbn [seen _load].
  split.
  - apply bool_decide_eq_true. exists now.
    apply map_lookup_filter_Some. split; [|done].
    unfold mark_seen. cbn [seen]. apply lookup_insert_eq.
  - intros v. rewrite !bool_decide_eq_true. intros [t Ht].
    apply map_lookup_filter_Some in Ht as [Ht _]. by eexists.
Qed.

End Tracker.

Lemma reload_after_mark_witness :
  let md5 := fun u : str => u in
  let self := {| filepath := py "seen_jobs.json"; seen := ∅ |} in
  let u := py "https://somalijobs.com/jobs/garowe/7/driver" in
  is_seen md5
    (new_tracker (py "seen_jobs.json")
       (Some (save (mark_seen md5 (py "2026-03-01T10:00:00") self u)))
       (py "2026-01-01T10:00:00"))
    u = true.
Proof.
  intros md5 self u.
  exact (proj1 (reload_after_mark md5 (py "seen_jobs.json")
                  (py "2026-03-01T10:00:00") (py "2026-01-01T10:00:00")
                  self u eq_refl)).
Defined.

(** ** What [clean_text] returns *)

Lemma lstrip_head s c r : Py.lstrip s = c :: r -> Py.isspace c = false.
Proof.
  induction s as [|x s IH]; [discriminate|]. cbn [Py.lstrip].
  destruct (Py.isspace x) eqn:Hx; [done|]. by intros [= <- _].
Qed.

Lemma rstrip_last s r c : Py.rstrip s = r ++ [c] -> Py.isspace c = false.
Proof.
  unfold Py.rstrip. intros H.
  apply (f_equal (@rev N)) in H.
  rewrite rev_involutive, rev_app_distr in H. simpl in H.
  by eapply lstrip_head.
Qed.

Lemma strip_ends s :
  (forall c r, Py.strip s = c :: r -> Py.isspace c = false) /\
  (forall r c, Py.strip s = r ++ [c] -> Py.isspace c = false).
Proof.
  split.
  - intros c r H. unfold Py.strip in H.
    destruct (rstrip_split (Py.lstrip s)) as (w & Hw & _).
    rewrite H in Hw. by eapply lstrip_head.
  - intros r c H. by eapply rstrip_last.
Qed.

(** X8. The result of [clean_text] neither starts nor ends with a
    white-space character. *)
Theorem clean_text_stripped x :
  (forall c r, clean_text x = c :: r -> Py.isspace c = false) /\
  (forall r c, clean_text x = r ++ [c] -> Py.isspace c = false).
Proof.
  unfold clean_text. destruct (negb (Py.truthy x)).
  - split; [discriminate|]. intros [|? ?] ?; discriminate.
  - apply strip_ends.
Qed.

(** A text in which the scanner finds nothing has no match of the
    placeholder pattern at any position. *)
Lemma no_placeholder_suffix s a t :
  Scan.has_placeholder s = false -> s = a ++ t ->
  Re.email_placeholder t = None.
Proof.
  unfold Scan.has_placeholder. intros Hs ->.
  destruct (Re.email_placeholder t) as [n|] eqn:Hm; [|reflexivity].
  rewrite run_app in Hs.
  by rewrite (match_found t n _ Hm) in Hs.
Qed.

(** X9. The result of [clean_text] holds none of the three artifact
    characters (U+00A0, U+00C2, U+00B7), and the placeholder pattern
    [\[email\s*protected\]] matches at none of its positions. *)
Theorem clean_text_no_artifact x :
  Forall (fun c => c <> 160%N /\ c <> 194%N /\ c <> 183%N) (clean_text x) /\
  (forall a t, clean_text x = a ++ t -> Re.email_placeholder t = None).
Proof.
  destruct (clean_text_tidy x) as [Hart Hscan]. split.
  - eapply Forall_impl; [exact Hart|]. intros c Hc. unfold artifact in Hc.
    rewrite !orb_false_iff, !N.eqb_neq in Hc. tauto.
  - intros a t. by apply no_placeholder_suffix.
Qed.

(** X10. Apart from the case of equality, a second [clean_text] can only
    shorten: it never lengthens what the first returned. *)
Theorem clean_text_again_length x :
  length (clean_text (clean_text x)) <= length (clean_text x).
Proof. apply clean_text_tidy_length, clean_text_tidy. Qed.

(** ** [detect_country], [prettify_location], [location_from_url] *)

Lemma COUNTRY_MAP_countries kw country :
  In (kw, country) COUNTRY_MAP -> In country countries.
Proof.
  intros Hin.
  assert (Hall : forallb (fun kv => existsb (Py.eqb (snd kv)) countries)
                         COUNTRY_MAP = true) by (vm_compute; reflexivity).
  rewrite forallb_forall in Hall. specialize (Hall _ Hin). cbn [snd] in Hall.
  apply existsb_exists in Hall as (c & Hc & Heq).
  apply Py_eqb_eq in Heq. by subst.
Qed.

(** X11. [detect_country] only ever answers with one of the five
    countries of its table: Somalia, Kenya, Uganda, Djibouti or
    Ethiopia. *)
Theorem detect_country_range location :
  In (detect_country location) countries.
Proof.
  unfold detect_country.
  destruct (negb (Py.truthy location)); [by left|].
  destruct (first_country COUNTRY_MAP (Py.lower location)) eqn:E;
    [|by left].
  destruct (first_country_in _ _ _ E) as [kw Hin].
  by eapply COUNTRY_MAP_countries.
Qed.

(** The loop returns the country of the first keyword found: if every
    entry before a keyword that occurs names the same country, that
    country is the answer. *)
Lemma first_country_prefix (pre rest : list (str * str)) s c kw :
  Forall (fun kv => snd kv = c) pre ->
  In (kw, c) pre -> Py.contains kw s = true ->
  first_country (pre ++ rest) s = Some c.
Proof.
  induction pre as [|[k v] pre IH]; intros Hall Hin Hc; [destruct Hin|].
  inversion Hall as [|? ? Hv Hpre]; subst. cbn [snd] in *. simpl.
  destruct (Py.contains k s) eqn:Hk; [reflexivity|].
  destruct Hin as [[= ->]|Hin]; [congruence|]. by apply IH.
Qed.

(** X12. Keywords of Somalia come first: when the lower-cased location
    holds a keyword that the table maps to Somalia, the answer is
    ["Somalia"], whatever other keyword the location holds (a location
    that names both Nairobi and Somalia is in Somalia). *)
Theorem detect_country_somalia_first location kw :
  In (kw, py "Somalia") COUNTRY_MAP ->
  Py.contains kw (Py.lower location) = true ->
  detect_country location = py "Somalia".
Proof.
  intros Hin Hc. unfold detect_country.
  destruct (negb (Py.truthy location)); [reflexivity|].
  rewrite <- (take_drop 14 COUNTRY_MAP).
  rewrite (first_country_prefix _ _ _ (py "Somalia") kw); [reflexivity| |  |done].
  - vm_compute. repeat constructor.
  - rewrite <- (take_drop 14 COUNTRY_MAP) in Hin.
    apply in_app_or in Hin as [Hin|Hin]; [done|].
    exfalso. vm_compute in Hin.
    repeat (destruct Hin as [Hin|Hin]; [discriminate|]). done.
Qed.

Lemma detect_country_somalia_first_witness :
  detect_country (py "Nairobi / Somalia") = py "Somalia".
Proof.
  apply (detect_country_somalia_first _ (py "somalia")).
  - vm_compute. tauto.
  - vm_compute. reflexivity.
Defined.









(** *** [location_from_url] *)

Lemma run_segment seg rest :
  Forall (fun c => c <> 47%N) seg ->
  Re.run (fun c => negb (c =? 47)%N) (seg ++ 47%N :: rest) = length seg.
Proof.
  induction 1 as [|c r Hc Hr IH]; [reflexivity|]. cbn [app Re.run length].
  apply N.eqb_neq in Hc. rewrite Hc. cbn [negb]. by rewrite IH.
Qed.

Lemma jobs_segment_here_match seg rest :
  seg <> [] -> Forall (fun c => c <> 47%N) seg ->
  jobs_segment_here (py "/jobs/" ++ seg ++ py "/" ++ rest) = Some seg.
Proof.
  intros Hne Hseg. unfold jobs_segment_here.
  set (x := seg ++ py "/" ++ rest).
  assert (Hstart : Py.startswith (py "/jobs/") (py "/jobs/" ++ x) = true)
    by reflexivity.
  assert (Hdrop : drop 6 (py "/jobs/" ++ x) = x) by reflexivity.
  rewrite Hstart, Hdrop. subst x.
  change (py "/" ++ rest) with (47%N :: rest).
  rewrite run_segment by done.
  rewrite drop_app_length, take_app_length.
  destruct seg; [done|]. reflexivity.
Qed.

Lemma jobs_segment_here_miss c p x :
  Py.contains (py "/j") (c :: p) = false ->
  jobs_segment_here ((c :: p) ++ 47%N :: x) = None.
Proof.
  intros H. unfold jobs_segment_here.
  replace (Py.startswith (py "/jobs/") ((c :: p) ++ 47%N :: x)) with false;
    [reflexivity|].
  symmetry. cbn [Py.contains] in H. apply orb_false_iff in H as [H _].
  change (py "/jobs/") with [47; 106; 111; 98; 115; 47]%N.
  change (py "/j") with [47; 106]%N in H.
  cbn [app Py.startswith] in *.
  destruct (N.eqb_spec 47 c) as [<-|]; [|reflexivity]. cbn [andb] in *.
  destruct p as [|d p]; [reflexivity|]. cbn [app] in *.
  destruct (N.eqb_spec 106 d) as [<-|]; [|reflexivity]. cbn [andb] in H.
  by destruct p.
Qed.

Lemma contains_tail w c s : Py.contains w (c :: s) = false ->
                            Py.contains w s = false.
Proof. cbn [Py.contains]. intros H. by apply orb_false_iff in H as [_ H]. Qed.

(** X14. For a URL of the shape [P/jobs/S/R], where the segment [S] is
    not empty and holds no slash and where [/j] does not occur in [P],
    [location_from_url] is [prettify_location(S)]. *)
Theorem location_from_url_segment prefix seg rest :
  Py.contains (py "/j") prefix = false ->
  seg <> [] -> Forall (fun c => c <> 47%N) seg ->
  location_from_url (prefix ++ py "/jobs/" ++ seg ++ py "/" ++ rest)
  = prettify_location seg.
Proof.
  intros Hp Hne Hseg. unfold location_from_url.
  assert (Hs : search_jobs_segment
                 (prefix ++ py "/jobs/" ++ seg ++ py "/" ++ rest) = Some seg).
  { induction prefix as [|c p IH].
    - cbn [app]. destruct (py "/jobs/" ++ seg ++ py "/" ++ rest) eqn:E;
        cbn [search_jobs_segment]; rewrite <- E;
        by rewrite jobs_segment_here_match.
    - cbn [app search_jobs_segment].
      change (c :: p ++ py "/jobs/" ++ seg ++ py "/" ++ rest)
        with ((c :: p) ++ 47%N :: (py "jobs/" ++ seg ++ py "/" ++ rest)).
      rewrite jobs_segment_here_miss by done.
      apply IH. by eapply contains_tail. }
  by rewrite Hs.
Qed.

Lemma location_from_url_segment_witness :
  location_from_url (py "https://somalijobs.com" ++ py "/jobs/"
                     ++ py "mogadiscio" ++ py "/" ++ py "123/driver")
  = py "Mogadishu".
Proof.
  rewrite location_from_url_segment.
  - vm_compute. reflexivity.
  - vm_compute. reflexivity.
  - discriminate.
  - vm_compute. repeat constructor; discriminate.
Defined.

(** ** [collect_section] *)

Lemma section_content_end before el after :
  section_end el = true ->
  section_content (before ++ el :: after) = section_content before.
Proof.
  intros Hend. induction before as [|b before IH].
  - cbn [app section_content]. unfold section_end in Hend.
    destruct (is_h1_h2 (el_name el)); [reflexivity|].
    cbn [orb] in Hend. by rewrite Hend.
  - cbn [app section_content]. rewrite IH. reflexivity.
Qed.

(** X15. [collect_section] reads the siblings up to the first one that
    ends the section (the next [h1] or [h2], a [footer], or a tag whose
    text holds [Similar Jobs]): that sibling and everything after it
    have no effect on the result. *)
Theorem collect_section_stops text before el after :
  section_end el = true ->
  collect_section {| h_text := text; h_siblings := before ++ el :: after |}
  = collect_section {| h_text := text; h_siblings := before |}.
Proof.
  intros Hend. unfold collect_section. cbn [h_siblings].
  by rewrite section_content_end.
Qed.

Lemma collect_section_stops_witness :
  collect_section details_then_heading = py "Garowe" ++ [nl] ++ py "Location".
Proof.
  etransitivity.
  - exact (collect_section_stops (py "Job Details")
             [ {| el_name := py "div";
                  el_text := py "Garowe" ++ [nl] ++ py "Location";
                  el_link := None |} ]
             {| el_name := py "h2"; el_text := py "How to Apply";
                el_link := None |}
             [ {| el_name := py "div"; el_text := py "Send your CV";
                  el_link := None |} ] eq_refl).
  - vm_compute. reflexivity.
Defined.

Section MatchCount.

Variable m : str -> option nat.
Variable least : nat.
Hypothesis m_inside : forall s n, m s = Some n -> least <= n <= length s.

(** Matches do not overlap: together they fit in the text. *)
Lemma count_from_fits s : forall k,
  k <= length s -> least * Re.count_from m k s + k <= length s.
Proof.
  induction s as [|c r IH]; intros k Hk; simpl in *.
  - lia.
  - destruct k as [|k].
    + destruct (m (c :: r)) as [[|n]|] eqn:E.
      * specialize (IH 0). lia.
      * destruct (m_inside _ _ E) as [Hl Hn]. simpl in Hn.
        specialize (IH n). lia.
      * specialize (IH 0). lia.
    + specialize (IH k). lia.
Qed.

Lemma count_fits s : least * Re.count m s <= length s.
Proof. pose proof (count_from_fits s 0). unfold Re.count. lia. Qed.

End MatchCount.

(** X16. A collected section has at most 4000 characters: the text is
    cut to 2000 characters, and [clean_text] can then at most double it
    by replacing e-mail placeholders. *)
Theorem collect_section_length h2 : length (collect_section h2) <= 4000.
Proof.
  unfold collect_section.
  set (y := take 2000 (Py.strip (Py.join_nl (section_content (h_siblings h2))))).
  assert (Hy : length y <= 2000) by (subst y; rewrite length_take; lia).
  unfold clean_text. destruct (negb (Py.truthy y)); [simpl; lia|].
  etransitivity; [apply length_after_substitutions|].
  etransitivity; [apply length_sub_email|].
  pose proof (length_replace_artifacts y).
  pose proof (count_fits Re.email_placeholder 16 email_placeholder_inside
                (replace_artifacts y)).
  lia.
Qed.

(** ** The details grid *)

Lemma grid_label_field line field :
  grid_label grid_label_map line = Some field -> field ∈ grid_fields.
Proof.
  unfold grid_label_map, grid_fields. cbn [map grid_label fst snd].
  repeat case_match; intros [= <-]; set_solver.
Qed.

Lemma grid_step_other lines (j : job) i k :
  k ∉ grid_fields -> grid_step lines j i !! k = j !! k.
Proof.
  intros Hk. unfold grid_step.
  destruct (lines !! i) as [line|]; [|reflexivity].
  destruct (grid_label grid_label_map _) as [field|] eqn:Hf; [|reflexivity].
  repeat case_match; try reflexivity.
  apply lookup_insert_ne. intros ->. by apply Hk, (grid_label_field _ _ Hf).
Qed.

(** X17. [parse_job_details_section] only ever writes the six fields of
    its label table (datePosted, deadline, sector, location, type,
    experience): every other key of the record, present or not, is left
    as it was. *)
Theorem parse_job_details_section_other h2 (j : job) k :
  k ∉ grid_fields -> parse_job_details_section h2 j !! k = j !! k.
Proof.
  intros Hk. unfold parse_job_details_section, grid_scan.
  generalize (seq 0 (length (grid_lines (h_siblings h2)))). intros l.
  revert j. induction l as [|i l IH]; intros j; [reflexivity|].
  cbn [foldl]. by rewrite IH, grid_step_other.
Qed.

Lemma parse_job_details_section_other_witness :
  parse_job_details_section details_garowe (initial_job sample_url) !! "title"
  = initial_job sample_url !! "title".
Proof.
  apply parse_job_details_section_other.
  unfold grid_fields. rewrite !not_elem_of_cons.
  repeat split; try discriminate. apply not_elem_of_nil.
Defined.

(** ** The details grid: the value above the last label *)

(** X18. Value above label: when line [i + 1] is a label of a field,
    line [i] above it is non-empty after stripping and shorter than 100
    characters, and no later line is a label of the same field, the
    scan leaves that field with the stripped line [i] (a location passed
    through [prettify_location]), whatever the record held before. *)
Theorem grid_scan_last_label lines (j : job) i line prev field :
  lines !! S i = Some line ->
  grid_label grid_label_map (Py.strip (Py.lower line)) = Some field ->
  lines !! i = Some prev ->
  Py.strip prev <> [] -> length (Py.strip prev) < 100 ->
  (forall i' line', S i < i' -> lines !! i' = Some line' ->
     grid_label grid_label_map (Py.strip (Py.lower line')) <> Some field) ->
  grid_scan lines j !! field = Some (stored_value field (Py.strip prev)).
Proof.
  intros Hline Hlabel Hprev Hne Hlen Hlater. unfold grid_scan.
  assert (Hn : S i < length lines) by (by eapply lookup_lt_Some).
  replace (length lines) with (S i + S (length lines - S (S i))) by lia.
  rewrite seq_app, foldl_app. cbn [Nat.add seq foldl].
  rewrite grid_steps_unlabelled.
  2:{ intros i' line' Hi'. apply Hlater.
      apply list_elem_of_In, in_seq in Hi'. lia. }
  unfold grid_step at 1. rewrite Hline, Hlabel.
  change (0 <? S i) with true. cbv iota.
  replace (S i - 1) with i by lia. rewrite Hprev.
  replace (Py.truthy (Py.strip prev)) with true by (by destruct (Py.strip prev)).
  replace (length (Py.strip prev) <? 100) with true
    by (symmetry; by apply Nat.ltb_lt).
  cbn [andb]. apply lookup_insert_eq.
Qed.

Lemma grid_scan_last_label_witness :
  grid_scan [py "Garowe"; py "Location"] (initial_job sample_url) !! "location"
  = Some (py "Garowe").
Proof.
  apply (grid_scan_last_label [py "Garowe"; py "Location"] _ 0
           (py "Location") (py "Garowe") "location").
  - reflexivity.
  - reflexivity.
  - reflexivity.
  - discriminate.
  - vm_compute. lia.
  - intros [|[|i']] line' Hi Hl; try lia. discriminate.
Defined.

(** ** The guarded strategies *)

Lemma fill_if_empty_keeps key found (j : job) k :
  j !!! k <> [] -> fill_if_empty key found j !!! k = j !!! k.
Proof.
  intros Hk. unfold fill_if_empty.
  destruct (Py.truthy (j !!! key)) eqn:Ht; cbn [negb]; [reflexivity|].
  destruct found as [g|]; [|reflexivity].
  apply lookup_total_insert_ne. intros ->.
  by destruct (j !!! k).
Qed.

Lemma method2_raw_html_keeps pg (j : job) k :
  j !!! k <> [] -> method2_raw_html pg j !!! k = j !!! k.
Proof.
  intros Hk. unfold method2_raw_html.
  pose proof (fill_if_empty_keeps "organization" (pg_raw_org pg) j k Hk) as H1.
  set (j1 := fill_if_empty "organization" (pg_raw_org pg) j) in *.
  assert (Hk1 : j1 !!! k <> []) by (by rewrite H1).
  pose proof (fill_if_empty_keeps "datePosted" (pg_raw_datePosted pg) j1 k Hk1)
    as H2.
  set (j2 := fill_if_empty "datePosted" (pg_raw_datePosted pg) j1) in *.
  assert (Hk2 : j2 !!! k <> []) by (by rewrite H2).
  rewrite fill_if_empty_keeps by done. by rewrite H2.
Qed.

Lemma method4_company_link_keeps pg (j : job) k :
  j !!! k <> [] -> method4_company_link pg j !!! k = j !!! k.
Proof.
  intros Hk. unfold method4_company_link.
  destruct (Py.truthy (j !!! "organization")) eqn:Ht; cbn [negb];
    [reflexivity|].
  destruct (first_company_name _); [|reflexivity].
  apply lookup_total_insert_ne. intros <-. by destruct (j !!! "organization").
Qed.

Lemma body_step_keeps lines (j : job) i k :
  j !!! k <> [] -> body_step lines j i !!! k = j !!! k.
Proof.
  intros Hk. unfold body_step.
  destruct (lines !! i) as [line|]; [|reflexivity].
  destruct (body_label body_label_map _) as [field|]; [|reflexivity].
  destruct (lines !! (i - 1)) as [value|]; [|reflexivity].
  destruct (Py.truthy (j !!! field)) eqn:Ht;
    [by rewrite andb_false_r|].
  case_match; [|reflexivity].
  apply lookup_total_insert_ne. intros ->. by destruct (j !!! k).
Qed.

Lemma fallback_body_lines_keeps pg (j : job) k :
  j !!! k <> [] -> fallback_body_lines pg j !!! k = j !!! k.
Proof.
  unfold fallback_body_lines.
  generalize (body_lines (pg_body_text pg)) as lines.
  intros lines. generalize (seq 1 (length lines - 1)) as l. intros l.
  revert j. induction l as [|i l IH]; intros j Hk; [reflexivity|].
  cbn [foldl]. rewrite IH by (by rewrite body_step_keeps).
  by apply body_step_keeps.
Qed.

Lemma fallback_inline_deadline_keeps pg (j : job) k :
  j !!! k <> [] -> fallback_inline_deadline pg j !!! k = j !!! k.
Proof.
  intros Hk. unfold fallback_inline_deadline.
  destruct (Py.truthy (j !!! "deadline")) eqn:Ht; cbn [negb];
    [reflexivity|].
  destruct (pg_inline_deadline pg); [|reflexivity].
  apply lookup_total_insert_ne. intros <-. by destruct (j !!! "deadline").
Qed.

(** X19. The four guarded strategies never overwrite: a field that is
    not empty keeps its value through the raw-markup searches of
    Method 2, the company link of Method 4, the value-above-label scan
    of the body text and the inline deadline search. *)
Theorem guarded_strategies_keep pg (j : job) k :
  j !!! k <> [] ->
  method2_raw_html pg j !!! k = j !!! k /\
  method4_company_link pg j !!! k = j !!! k /\
  fallback_body_lines pg j !!! k = j !!! k /\
  fallback_inline_deadline pg j !!! k = j !!! k.
Proof.
  intros Hk.
  auto using method2_raw_html_keeps, method4_company_link_keeps,
    fallback_body_lines_keeps, fallback_inline_deadline_keeps.
Qed.

Lemma guarded_strategies_keep_witness :
  let j := <["organization" := py "Example Org"]> (initial_job sample_url) in
  method2_raw_html page_with_fallbacks j !!! "organization"
  = py "Example Org" /\
  method4_company_link page_with_fallbacks j !!! "organization"
  = py "Example Org".
Proof.
  intros j.
  destruct (guarded_strategies_keep page_with_fallbacks j "organization")
    as (H2 & H4 & _); [discriminate|].
  rewrite H2, H4. split; reflexivity.
Defined.

(** With an empty field the same strategies do fill it. *)
Example guarded_strategies_fill :
  let j := initial_job sample_url in
  method2_raw_html page_with_fallbacks j !!! "organization" = py "Raw Org" /\
  method4_company_link page_with_fallbacks j !!! "organization"
  = py "Linked Org" /\
  fallback_body_lines page_with_fallbacks j !!! "sector" = py "Health" /\
  fallback_inline_deadline page_with_fallbacks j !!! "deadline"
  = py "March 3, 2025".
Proof. repeat split; vm_compute; reflexivity. Qed.

(** ** The shape of the record *)

Lemma well_formed_insert url (j : job) k v :
  k ∈ assigned_keys -> well_formed url j -> well_formed url (<[k:=v]> j).
Proof.
  intros Hk (Hdom & Hurl & Hsrc). unfold assigned_keys in Hk.
  apply elem_of_difference in Hk as [Hk Hne].
  split; [|split].
  - rewrite dom_insert_L, Hdom. apply subseteq_union_1_L.
    by apply singleton_subseteq_l.
  - rewrite lookup_insert_ne; [done|]. set_solver.
  - rewrite lookup_insert_ne; [done|]. set_solver.
Qed.

Ltac assigned := apply (bool_decide_unpack _); vm_compute; exact I.

Lemma well_formed_foldl {A} url (f : job -> A -> job) (l : list A) :
  (forall j x, well_formed url j -> well_formed url (f j x)) ->
  forall j, well_formed url j -> well_formed url (foldl f j l).
Proof.
  intros Hf. induction l as [|x l IH]; intros j Hj; [done|].
  cbn [foldl]. by apply IH, Hf.
Qed.

Lemma initial_job_well_formed url : well_formed url (initial_job url).
Proof.
  unfold well_formed, initial_job. split; [|split].
  - rewrite !dom_insert_L, dom_empty_L. unfold job_keys. set_solver.
  - by rewrite !lookup_insert_ne, lookup_insert_eq by done.
  - by rewrite !lookup_insert_ne, lookup_insert_eq by done.
Qed.

Lemma read_posting_well_formed url (j : job) item :
  well_formed url j -> well_formed url (read_posting j item).
Proof.
  intros Hj. unfold read_posting.
  repeat case_match; repeat (apply well_formed_insert; [assigned|]); done.
Qed.

Lemma method1_json_ld_well_formed url pg (j : job) :
  well_formed url j -> well_formed url (method1_json_ld pg j).
Proof.
  apply well_formed_foldl. intros j' [|items] Hj'; [done|].
  cbn [read_script]. revert Hj'. apply well_formed_foldl.
  intros. by apply read_posting_well_formed.
Qed.

Lemma fill_if_empty_well_formed url key found (j : job) :
  key ∈ assigned_keys ->
  well_formed url j -> well_formed url (fill_if_empty key found j).
Proof.
  intros Hk Hj. unfold fill_if_empty.
  destruct (negb _); [destruct found|]; try exact Hj.
  by apply well_formed_insert.
Qed.

Lemma method2_raw_html_well_formed url pg (j : job) :
  well_formed url j -> well_formed url (method2_raw_html pg j).
Proof.
  intros Hj. unfold method2_raw_html.
  repeat (apply fill_if_empty_well_formed; [assigned|]). done.
Qed.

Lemma method3_heading_well_formed url pg (j : job) :
  well_formed url j -> well_formed url (method3_heading pg j).
Proof.
  intros Hj. unfold method3_heading.
  case_match; [|done]. apply well_formed_insert; [assigned|done].
Qed.

Lemma method4_company_link_well_formed url pg (j : job) :
  well_formed url j -> well_formed url (method4_company_link pg j).
Proof.
  intros Hj. unfold method4_company_link.
  repeat case_match; try done. apply well_formed_insert; [assigned|done].
Qed.

Lemma grid_fields_assigned field :
  field ∈ grid_fields -> field ∈ assigned_keys.
Proof.
  unfold grid_fields. rewrite !elem_of_cons, elem_of_nil.
  intros [->|[->|[->|[->|[->|[->|[]]]]]]]; assigned.
Qed.

Lemma grid_step_well_formed url lines (j : job) i :
  well_formed url j -> well_formed url (grid_step lines j i).
Proof.
  intros Hj. unfold grid_step.
  destruct (lines !! i) as [line|]; [|done].
  destruct (grid_label grid_label_map _) as [field|] eqn:Hf; [|done].
  repeat case_match; try done.
  apply well_formed_insert; [|done].
  by apply grid_fields_assigned, (grid_label_field _ _ Hf).
Qed.

Lemma read_section_well_formed url (j : job) h2 :
  well_formed url j -> well_formed url (read_section j h2).
Proof.
  intros Hj. unfold read_section.
  repeat case_match; try done;
    try (apply well_formed_insert; [assigned|done]).
  unfold parse_job_details_section, grid_scan.
  revert Hj. apply well_formed_foldl.
  intros. by apply grid_step_well_formed.
Qed.

Lemma body_label_field line field :
  body_label body_label_map line = Some field -> field ∈ grid_fields.
Proof.
  unfold body_label_map, grid_fields. cbn [map body_label fst snd].
  repeat case_match; intros [= <-]; set_solver.
Qed.

Lemma body_step_well_formed url lines (j : job) i :
  well_formed url j -> well_formed url (body_step lines j i).
Proof.
  intros Hj. unfold body_step.
  destruct (lines !! i) as [line|]; [|done].
  destruct (body_label body_label_map _) as [field|] eqn:Hf; [|done].
  repeat case_match; try done.
  apply well_formed_insert; [|done].
  by apply grid_fields_assigned, (body_label_field _ _ Hf).
Qed.

Lemma resolve_fields_well_formed url pg (j : job) :
  well_formed url j -> well_formed url (resolve_fields pg j).
Proof.
  intros Hj. unfold resolve_fields.
  assert (H5 : well_formed url
    (method5_sections pg (method4_company_link pg (method3_heading pg
       (method2_raw_html pg (method1_json_ld pg j)))))).
  { unfold method5_sections. apply well_formed_foldl.
    - intros. by apply read_section_well_formed.
    - by apply method4_company_link_well_formed,
        method3_heading_well_formed, method2_raw_html_well_formed,
        method1_json_ld_well_formed. }
  unfold fallback_inline_deadline.
  assert (Hb : well_formed url (fallback_body_lines pg
    (method5_sections pg (method4_company_link pg (method3_heading pg
       (method2_raw_html pg (method1_json_ld pg j))))))).
  { unfold fallback_body_lines. revert H5. apply well_formed_foldl.
    intros. by apply body_step_well_formed. }
  repeat case_match; try done. apply well_formed_insert; [assigned|done].
Qed.

Lemma assemble_well_formed url (j : job) :
  well_formed url j -> well_formed url (assemble j).
Proof.
  intros Hj. unfold assemble, clean_fields, cleaned_keys. cbn [foldl].
  repeat (apply well_formed_insert; [assigned|]).
  unfold fix_type.
  assert (Hc : well_formed url (combine_description j))
    by (apply well_formed_insert; [assigned|done]).
  case_match; [|done]. apply well_formed_insert; [assigned|done].
Qed.

(** X20. Every record that [scrape_job_page] returns has exactly the
    fifteen keys of the initial dictionary, its [url] is the URL that
    was asked for and its [source] is ["somalijobs"]: no strategy adds
    or removes a key or touches these two. *)
Theorem scrape_job_page_well_formed url pg (j : job) :
  scrape_job_page url (Some pg) = Some j ->
  dom j = job_keys /\ j !! "url" = Some url
  /\ j !! "source" = Some (py "somalijobs").
Proof.
  intros [= <-].
  apply assemble_well_formed, resolve_fields_well_formed,
    initial_job_well_formed.
Qed.

Lemma scrape_job_page_well_formed_witness :
  exists j : job,
    scrape_job_page sample_url (Some page_two_titles) = Some j /\
    j !! "url" = Some sample_url.
Proof.
  eexists. split; [reflexivity|].
  exact (proj1 (proj2 (scrape_job_page_well_formed sample_url
                         page_two_titles _ eq_refl))).
Defined.

(** When the page could not be fetched there is no record. *)
Example scrape_job_page_no_page url : scrape_job_page url None = None.
Proof. reflexivity. Qed.

Lemma clean_fields_location (j : job) :
  clean_fields j !!! "location" = j !!! "location" /\
  clean_fields j !!! "country" = j !!! "country".
Proof.
  split; apply clean_fields_other; apply (bool_decide_unpack _);
    vm_compute; exact I.
Qed.

(** X21. In every record that [scrape_job_page] returns, the country is
    [detect_country] of the record's own location, and so one of the
    five countries of the table. *)
Theorem scrape_job_page_country url pg (j : job) :
  scrape_job_page url (Some pg) = Some j ->
  j !!! "country" = detect_country (j !!! "location") /\
  In (j !!! "country") countries.
Proof.
  intros [= <-].
  assert (Hc : assemble (resolve_fields pg (initial_job url)) !!! "country"
    = detect_country
        (assemble (resolve_fields pg (initial_job url)) !!! "location")).
  { unfold assemble.
    destruct (clean_fields_location
      (set_country (fix_type (combine_description
         (resolve_fields pg (initial_job url)))))) as [-> ->].
    unfold set_country.
    by rewrite lookup_total_insert_eq, lookup_total_insert_ne. }
  split; [done|]. rewrite Hc.
  (* the range of [detect_country] *)
  unfold detect_country.
  destruct (negb (Py.truthy _)); [by left|].
  destruct (first_country COUNTRY_MAP _) eqn:E; [|by left].
  destruct (first_country_in _ _ _ E) as [kw Hin].
  by eapply COUNTRY_MAP_countries.
Qed.

Lemma scrape_job_page_country_witness :
  exists j : job,
    scrape_job_page sample_url (Some page_two_titles) = Some j /\
    j !!! "country" = detect_country (j !!! "location").
Proof.
  eexists. split; [reflexivity|].
  exact (proj1 (scrape_job_page_country sample_url page_two_titles _ eq_refl)).
Defined.

Lemma clean_fields_cleaned (keys : list string) : forall (j : job) key,
  NoDup keys -> key ∈ keys ->
  foldl (fun j key => <[key := clean_text (member (j !! key))]> j) j keys
    !!! key
  = clean_text (j !!! key).
Proof.
  induction keys as [|k keys IH]; intros j key Hnd Hin;
    [by apply elem_of_nil in Hin|].
  apply NoDup_cons in Hnd as [Hk Hnd]. cbn [foldl].
  apply elem_of_cons in Hin as [->|Hin].
  - clear IH. revert j. induction keys as [|k' keys IH']; intros j.
    + cbn [foldl]. by rewrite lookup_total_insert_eq.
    + cbn [foldl]. apply not_elem_of_cons in Hk as [Hne Hk].
      apply NoDup_cons in Hnd as [_ Hnd].
      rewrite insert_insert_ne by done.
      rewrite lookup_insert_ne by done.
      specialize (IH' Hk Hnd (<[k' := clean_text (member (j !! k'))]> j)).
      rewrite lookup_insert_ne in IH' by done.
      rewrite lookup_total_insert_ne in IH' by done. exact IH'.
  - rewrite IH by done. f_equal. apply lookup_total_insert_ne.
    intros ->. by apply Hk.
Qed.

(** X22. The eight text fields that the assembly cleans (title,
    organization, description, qualifications, responsibilities,
    howToApply, sector, experience) leave [scrape_job_page] as results
    of [clean_text]: none starts or ends with white space and none holds
    an artifact character. *)
Theorem scrape_job_page_clean url pg (j : job) key :
  scrape_job_page url (Some pg) = Some j -> key ∈ cleaned_keys ->
  (forall c r, j !!! key = c :: r -> Py.isspace c = false) /\
  (forall r c, j !!! key = r ++ [c] -> Py.isspace c = false) /\
  Forall (fun c => artifact c = false) (j !!! key).
Proof.
  intros [= <-] Hkey. unfold assemble, clean_fields.
  rewrite clean_fields_cleaned;
    [|apply (bool_decide_unpack _); vm_compute; exact I|done].
  set (x := _ !!! key).
  split; [|split].
  - unfold clean_text. destruct (negb (Py.truthy x)); [discriminate|].
    apply strip_ends.
  - unfold clean_text. destruct (negb (Py.truthy x)).
    + intros [|? ?] ?; discriminate.
    + apply strip_ends.
  - apply clean_text_tidy.
Qed.

Lemma scrape_job_page_clean_witness :
  exists j : job,
    scrape_job_page sample_url (Some page_two_titles) = Some j /\
    Forall (fun c => artifact c = false) (j !!! "title").
Proof.
  eexists. split; [reflexivity|].
  refine (proj2 (proj2 (scrape_job_page_clean sample_url page_two_titles _
                          "title" eq_refl _))).
  apply (bool_decide_unpack _). vm_compute. exact I.
Defined.

(** ** The links of the listing page *)

Lemma before_elem c s x : x ∈ before c s -> x ∈ s /\ x <> c.
Proof.
  induction s as [|y s IH]; cbn [before]; [by intros ?%elem_of_nil|].
  destruct (N.eqb_spec y c) as [->|Hne]; [by intros ?%elem_of_nil|].
  intros [->|Hin]%elem_of_cons.
  - split; [left|done].
  - destruct (IH Hin). split; [by right|done].
Qed.

Lemma before_id c s : c ∉ s -> before c s = s.
Proof.
  induction s as [|y s IH]; [done|].
  intros [Hne Hs]%not_elem_of_cons. cbn [before].
  destruct (N.eqb_spec y c) as [->|_]; [done|]. by rewrite IH.
Qed.

Lemma before_prefix c s : exists r, s = before c s ++ r.
Proof.
  induction s as [|y s [r IH]]; [by exists []|]. cbn [before].
  destruct (y =? c)%N; [by eexists|].
  exists r. cbn [app]. by rewrite <- IH.
Qed.

Lemma startswith_app p a b :
  Py.startswith p a = true -> Py.startswith p (a ++ b) = true.
Proof.
  revert a. induction p as [|x p IH]; intros [|y a]; cbn; try done.
  intros [-> H]%andb_true_iff. by rewrite IH.
Qed.

Lemma contains_app p a b :
  Py.contains p a = true -> Py.contains p (a ++ b) = true.
Proof.
  induction a as [|y a IH].
  - cbn [Py.contains]. rewrite orb_false_r. destruct p; [|done].
    intros _. by destruct b.
  - cbn [Py.contains app]. intros [H|H]%orb_true_iff.
    + apply (startswith_app _ _ b) in H. cbn [app] in H. by rewrite H.
    + by rewrite (IH H), orb_true_r.
Qed.

Lemma skipped_app a b : skipped (a ++ b) = false -> skipped a = false.
Proof.
  unfold skipped. intros H. apply not_true_iff_false. intros Ha.
  apply not_true_iff_false in H. apply H.
  apply existsb_exists in Ha as (s & Hs & Hc).
  apply existsb_exists. exists s. split; [done|]. by apply contains_app.
Qed.

Lemma clean_url_skipped href : skipped href = false ->
                               skipped (clean_url href) = false.
Proof.
  intros H. unfold clean_url.
  destruct (before_prefix 63 href) as [r Hr].
  destruct (before_prefix 35 (before 63 href)) as [r' Hr'].
  rewrite Hr in H. apply skipped_app in H.
  rewrite Hr' in H. by apply skipped_app in H.
Qed.

Lemma clean_url_marks href : 63%N ∉ clean_url href /\ 35%N ∉ clean_url href.
Proof.
  unfold clean_url. split; intros H.
  - apply before_elem in H as [H _]. by apply before_elem in H as [_ H].
  - by apply before_elem in H as [_ H].
Qed.

Lemma clean_url_id u : 63%N ∉ u -> 35%N ∉ u -> clean_url u = u.
Proof. intros H1 H2. unfold clean_url. by rewrite (before_id 63), before_id. Qed.

Lemma link_step_inv st href : links_inv st -> links_inv (link_step st href).
Proof.
  intros [Hnd Hseen]. unfold link_step.
  destruct (skipped href); [done|].
  case_bool_decide as Hin; cbn [negb]; [done|].
  split; cbn [fst snd].
  - apply NoDup_app. split; [done|]. split; [|apply NoDup_singleton].
    intros u Hu ->%list_elem_of_singleton. by apply Hin, Hseen.
  - intros u. rewrite elem_of_union, elem_of_singleton, elem_of_app,
      list_elem_of_singleton, Hseen. tauto.
Qed.

Lemma foldl_link_step_inv links : forall st,
  links_inv st -> links_inv (foldl link_step st links).
Proof.
  induction links as [|h links IH]; intros st Hst; [done|].
  cbn [foldl]. by apply IH, link_step_inv.
Qed.

Lemma links_inv_start : links_inv ([], ∅).
Proof.
  split; [apply NoDup_nil_2|]. intros u. cbn [fst snd].
  rewrite elem_of_nil. set_solver.
Qed.

Lemma foldl_link_step_elem links : forall st u,
  links_inv st ->
  u ∈ (foldl link_step st links).1 <->
  u ∈ st.1 \/
  exists href, href ∈ links /\ skipped href = false /\ u = clean_url href.
Proof.
  induction links as [|h links IH]; intros st u Hst.
  - cbn [foldl]. split; [by left|]. intros [H|(? & []%elem_of_nil & _)]. done.
  - cbn [foldl]. rewrite IH by by apply link_step_inv.
    destruct Hst as [_ Hseen]. unfold link_step.
    destruct (skipped h) eqn:Hsk.
    + split; (intros [H|(href & Hin & Hs & Hu)]; [by left|right]).
      * exists href. split; [by right|done].
      * apply elem_of_cons in Hin as [->|Hin]; [congruence|by exists href].
    + case_bool_decide as Hin; cbn [negb fst].
      * split; (intros [H|(href & Hin' & Hs & Hu)]; [by left|]).
        -- right. exists href. split; [by right|done].
        -- apply elem_of_cons in Hin' as [->|Hin'].
           ++ left. subst u. by apply Hseen.
           ++ right. by exists href.
      * rewrite elem_of_app, list_elem_of_singleton.
        split; (intros [H|(href & Hin' & Hs & Hu)]).
        -- destruct H as [H|H]; [by left|]. right. exists h.
           split; [left|done].
        -- right. exists href. split; [by right|done].
        -- left. by left.
        -- apply elem_of_cons in Hin' as [->|Hin'].
           ++ left. by right.
           ++ right. by exists href.
Qed.

(** X23. An address is in the result of the filtering loop exactly when
    it is [href.split('?')[0].split('#')[0]] for a link [href] of the
    page in which none of the skip patterns occurs. *)
Theorem filter_links_elem links u :
  u ∈ filter_links links <->
  exists href, href ∈ links /\ skipped href = false /\ u = clean_url href.
Proof.
  unfold filter_links.
  rewrite foldl_link_step_elem by apply links_inv_start.
  cbn [fst]. rewrite elem_of_nil. tauto.
Qed.

(** X24. The list that the filtering loop builds holds no address
    twice, and no address in it holds a question mark, a hash sign or
    one of the skip patterns. *)
Theorem filter_links_clean links :
  NoDup (filter_links links) /\
  Forall (fun u => 63%N ∉ u /\ 35%N ∉ u /\ skipped u = false)
    (filter_links links).
Proof.
  unfold filter_links. split.
  - by destruct (foldl_link_step_inv links _ links_inv_start).
  - apply Forall_forall. intros u.
    rewrite foldl_link_step_elem by apply links_inv_start.
    cbn [fst]. rewrite elem_of_nil.
    intros [[]|(href & _ & Hs & ->)].
    destruct (clean_url_marks href).
    by split; [|split; [|apply clean_url_skipped]].
Qed.

Lemma foldl_link_step_fresh l : forall st,
  links_inv st -> NoDup l ->
  (forall u, u ∈ l -> u ∉ st.1 /\ skipped u = false /\ clean_url u = u) ->
  (foldl link_step st l).1 = st.1 ++ l.
Proof.
  induction l as [|h l IH]; intros st Hst Hnd Hl.
  - cbn [foldl]. by rewrite app_nil_r.
  - cbn [foldl]. apply NoDup_cons in Hnd as [Hh Hnd].
    destruct (Hl h) as (Hnew & Hsk & Hid); [left|].
    assert (Hstep : link_step st h = (st.1 ++ [h], {[h]} ∪ st.2)).
    { unfold link_step. rewrite Hsk, Hid.
      destruct Hst as [_ Hseen].
      case_bool_decide as Hin; [by apply Hseen in Hin|done]. }
    rewrite IH; [|by apply link_step_inv|done|].
    + rewrite Hstep. cbn [fst]. by rewrite <- app_assoc.
    + intros u Hu. rewrite Hstep. cbn [fst].
      destruct (Hl u) as (Hnew' & Hsk' & Hid'); [by right|].
      split; [|done]. rewrite elem_of_app, list_elem_of_singleton.
      intros [?| ->]; done.
Qed.

(** X25. Filtering is idempotent: the loop run over its own result
    gives that result back, in the same order. *)
Theorem filter_links_idempotent links :
  filter_links (filter_links links) = filter_links links.
Proof.
  unfold filter_links at 1.
  rewrite foldl_link_step_fresh.
  - done.
  - apply links_inv_start.
  - unfold filter_links.
    by destruct (foldl_link_step_inv links _ links_inv_start).
  - intros u Hu. split; [by intros ?%elem_of_nil|].
    unfold filter_links in Hu.
    rewrite foldl_link_step_elem in Hu by apply links_inv_start.
    cbn [fst] in Hu. rewrite elem_of_nil in Hu.
    destruct Hu as [[]|(href & _ & Hs & ->)].
    destruct (clean_url_marks href).
    split; [by apply clean_url_skipped|by apply clean_url_id].
Qed.

(** ** A run of the scraper *)

Lemma scrape_job_page_url url f (j : job) :
  scrape_job_page url f = Some j -> j !!! "url" = url.
Proof.
  destruct f as [pg|]; [|done]. intros [= <-].
  destruct (assemble_well_formed url (resolve_fields pg (initial_job url)))
    as (_ & Hurl & _).
  { apply resolve_fields_well_formed, initial_job_well_formed. }
  by rewrite lookup_total_alt, Hurl.
Qed.

Section Run.

Variable md5_hexdigest : str -> str.
Variable fetched : nat -> option page.
Variable now : nat -> str.

Lemma scrape_loop_adds urls : forall i st,
  loop_adds md5_hexdigest urls st (scrape_loop md5_hexdigest fetched now i urls st).
Proof.
  induction urls as [|url urls IH]; intros i [jobs0 tr0].
  - exists []. cbn [scrape_loop fst snd]. rewrite app_nil_r. split; [done|].
    split; [done|]. split; [done|].
    destruct tr0; [|done]. split; [done|].
    cbn. by rewrite union_empty_r_L.
  - cbn [scrape_loop].
    destruct (IH (S i) (scrape_step md5_hexdigest fetched now (jobs0, tr0) i url))
      as (new & Hjobs & Hsub & Htitle & Htr).
    revert Hjobs Htr. unfold scrape_step.
    destruct (scrape_job_page url (fetched i)) as [j|] eqn:Hj.
    + destruct (negb (bool_decide (j = ∅)) && Py.truthy (j !!! "title"))
        eqn:Hkeep.
      * cbn [fst snd]. intros Hjobs Htr.
        apply andb_true_iff in Hkeep as [_ Hkeep].
        exists (j :: new). split; [by rewrite Hjobs, <- app_assoc|].
        split.
        { rewrite fmap_cons, (scrape_job_page_url _ _ _ Hj).
          by apply sublist_skip. }
        split; [by apply Forall_cons|].
        destruct tr0 as [t|]; [|done].
        destruct (snd _) as [t'|]; [|done].
        destruct Htr as [Hpath Hdom]. split; [done|].
        rewrite Hdom. cbn [mark_seen seen].
        rewrite dom_insert_L, fmap_cons, list_to_set_cons,
          (scrape_job_page_url _ _ _ Hj).
        unfold job_uid. set_solver.
      * intros Hjobs Htr. exists new.
        split; [done|]. split; [by apply sublist_cons|]. done.
    + intros Hjobs Htr. exists new.
      split; [done|]. split; [by apply sublist_cons|]. done.
Qed.

Lemma scrape_somalijobs_adds all_urls tr :
  let r := scrape_somalijobs md5_hexdigest fetched now all_urls tr in
  loop_adds md5_hexdigest
    (take MAX_JOBS
       match tr with
       | Some self => filter_new md5_hexdigest self all_urls
       | None => all_urls
       end)
    ([], tr) (r.1.1, r.1.2).
Proof.
  assert (Hnone : forall urls, loop_adds md5_hexdigest urls ([], tr) ([], tr)).
  { intros urls. exists []. split; [done|]. split; [apply sublist_nil_l|].
    split; [done|]. cbn [snd]. destruct tr; [|done]. split; [done|].
    cbn. by rewrite union_empty_r_L. }
  cbv zeta. unfold scrape_somalijobs.
  destruct all_urls as [|u0 all_urls]; [apply Hnone|].
  destruct (match tr with Some self => _ | None => _ end) eqn:Hnew;
    [apply Hnone|].
  cbv zeta. cbn [fst snd].
  rewrite <- surjective_pairing. apply scrape_loop_adds.
Qed.

(** X26. A run returns at most [MAX_JOBS] (one hundred) jobs, and each
    of them has a non-empty title. *)
Theorem scrape_somalijobs_bound all_urls tr :
  let jobs := (scrape_somalijobs md5_hexdigest fetched now all_urls tr).1.1 in
  length jobs <= 100 /\
  Forall (fun j : job => j !!! "title" <> []) jobs.
Proof.
  cbv zeta.
  destruct (scrape_somalijobs_adds all_urls tr)
    as (new & Hjobs & Hsub & Htitle & _).
  cbn [fst snd app] in Hjobs. rewrite Hjobs. split.
  - apply sublist_length in Hsub.
    rewrite length_fmap, length_take in Hsub. unfold MAX_JOBS in Hsub. lia.
  - eapply Forall_impl; [exact Htitle|].
    intros j Hj Hnil. cbv beta in Hj. by rewrite Hnil in Hj.
Qed.

(** X27. With a tracker, every job of a run is for an address of
    [all_urls] that the tracker had not seen when the run began. *)
Theorem scrape_somalijobs_new all_urls self :
  Forall (fun j : job =>
            j !!! "url" ∈ all_urls /\
            is_seen md5_hexdigest self (j !!! "url") = false)
    (scrape_somalijobs md5_hexdigest fetched now all_urls (Some self)).1.1.
Proof.
  destruct (scrape_somalijobs_adds all_urls (Some self))
    as (new & Hjobs & Hsub & _).
  cbn [fst snd app] in Hjobs. rewrite Hjobs.
  apply Forall_forall. intros j Hj.
  assert (Hin : j !!! "url" ∈ filter_new md5_hexdigest self all_urls).
  { eapply elem_of_sublist; [|apply (sublist_take _ MAX_JOBS)].
    eapply elem_of_sublist; [|exact Hsub].
    by apply (list_elem_of_fmap_2 (fun j : job => j !!! "url")). }
  by apply filter_new_elem in Hin.
Qed.

(** X28. With a tracker, the run marks exactly the addresses of the jobs
    it returns: afterwards an address is seen when it was seen before
    or has the identifier of a returned job's address; the file of the
    tracker, when written, holds the tracker's final table. *)
Theorem scrape_somalijobs_marks all_urls self :
  let r := scrape_somalijobs md5_hexdigest fetched now all_urls (Some self) in
  exists self',
    r.1.2 = Some self' /\
    (forall m, r.2 = Some m -> m = seen self') /\
    forall v,
      is_seen md5_hexdigest self' v = true <->
      is_seen md5_hexdigest self v = true \/
      exists j : job, j ∈ r.1.1 /\
        job_uid md5_hexdigest (j !!! "url") = job_uid md5_hexdigest v.
Proof.
  cbv zeta.
  pose proof (scrape_somalijobs_adds all_urls (Some self)) as Hadds.
  cbv zeta in Hadds.
  set (r := scrape_somalijobs _ _ _ _ _) in *.
  assert (Hsaved : r.2 = None \/ r.2 = save <$> r.1.2).
  { subst r. unfold scrape_somalijobs.
    destruct all_urls; [by left|].
    destruct (filter_new _ _ _); [by left|]. by right. }
  destruct Hadds as (new & Hjobs & _ & _ & Htr).
  cbn [fst snd app] in Hjobs, Htr. rewrite Hjobs.
  destruct r.1.2 as [self'|]; [|done]. destruct Htr as [_ Hdom].
  exists self'. split; [done|]. split.
  - intros m Hm. destruct Hsaved as [Hs|Hs]; rewrite Hs in Hm; [done|].
    cbn in Hm. by injection Hm as <-.
  - intros v. unfold is_seen.
    rewrite !bool_decide_eq_true, <- !elem_of_dom, Hdom, elem_of_union,
      elem_of_list_to_set, list_elem_of_fmap.
    split; (intros [H|(j & Hj & Hin)]; [by left|right]); by exists j.
Qed.

(** X29. When the tracker has seen every address of [all_urls], the run
    returns no job, leaves the tracker as it was and does not write its
    file. *)
Theorem scrape_somalijobs_nothing_new all_urls self :
  Forall (fun u => is_seen md5_hexdigest self u = true) all_urls ->
  scrape_somalijobs md5_hexdigest fetched now all_urls (Some self)
  = ([], Some self, None).
Proof.
  intros Hall. unfold scrape_somalijobs.
  assert (Hnew : filter_new md5_hexdigest self all_urls = []).
  { destruct (filter_new md5_hexdigest self all_urls) as [|u new] eqn:Hnew;
      [done|].
    assert (Hu : u ∈ filter_new md5_hexdigest self all_urls)
      by (rewrite Hnew; left).
    apply filter_new_elem in Hu as [Hin Hu].
    rewrite Forall_forall in Hall. by rewrite (Hall u Hin) in Hu. }
  rewrite Hnew. by destruct all_urls.
Qed.

End Run.

Lemma scrape_somalijobs_nothing_new_witness :
  scrape_somalijobs (fun u => u) (fun _ => Some page_two_titles)
    (fun _ => py "2026-01-01T00:00:00") [sample_url]
    (Some {| filepath := py "seen_jobs.json";
             seen := {[ sample_url := py "2025-12-31T00:00:00" ]} |})
  = ([], Some {| filepath := py "seen_jobs.json";
                 seen := {[ sample_url := py "2025-12-31T00:00:00" ]} |},
     None).
Proof.
  apply scrape_somalijobs_nothing_new.
  apply (bool_decide_unpack _). vm_compute. exact I.
Defined.

(** A run over one new address whose page has a title returns its job
    and marks the address. *)
Example scrape_somalijobs_sample :
  let r := scrape_somalijobs (fun u => u) (fun _ => Some page_two_titles)
             (fun _ => py "2026-01-01T00:00:00") [sample_url]
             (Some {| filepath := py "seen_jobs.json"; seen := ∅ |}) in
  length r.1.1 = 1 /\
  r.2 = Some {[ sample_url := py "2026-01-01T00:00:00" ]}.
Proof. split; vm_compute; reflexivity. Qed.

(** ** Two steps of the pipeline *)

Section Steps.

Variable md5_hexdigest : str -> str.

Lemma scrape_loop_stamps fetched now urls : forall i jobs0 t0,
  exists t',
    (scrape_loop md5_hexdigest fetched now i urls (jobs0, Some t0)).2 = Some t' /\
    forall k v, seen t' !! k = Some v ->
                seen t0 !! k = Some v \/ exists i', v = now i'.
Proof.
  induction urls as [|url urls IH]; intros i jobs0 t0.
  - exists t0. split; [done|]. intros k v Hk. by left.
  - cbn [scrape_loop]. unfold scrape_step.
    destruct (scrape_job_page url (fetched i)) as [j|]; [|apply IH].
    destruct (negb (bool_decide (j = ∅)) && Py.truthy (j !!! "title"));
      [|apply IH].
    cbn [fst snd].
    destruct (IH (S i) (jobs0 ++ [j]) (mark_seen md5_hexdigest (now i) t0 url))
      as (t' & Ht' & Hstamps).
    exists t'. split; [done|]. intros k v Hk.
    destruct (Hstamps k v Hk) as [Hold|Hnew]; [|by right].
    unfold mark_seen in Hold. cbn [seen] in Hold.
    apply lookup_insert_Some in Hold as [[_ <-]|[_ Hold]];
      [right; by exists i|by left].
Qed.

(** What a run with a tracker leaves: either nothing was written, and
    then no job is returned, or the final table was written, and its
    entries are those of the start and time stamps of the run. *)
Lemma scrape_somalijobs_written fetched now all_urls self :
  let r := scrape_somalijobs md5_hexdigest fetched now all_urls (Some self) in
  (r.2 = None /\ r.1.1 = []) \/
  exists t', r.1.2 = Some t' /\ r.2 = Some (seen t') /\
    forall k v, seen t' !! k = Some v ->
                seen self !! k = Some v \/ exists i', v = now i'.
Proof.
  cbv zeta. unfold scrape_somalijobs.
  destruct all_urls as [|u0 rest]; [by left|].
  destruct (filter_new _ _ _) as [|u new]; [by left|].
  right. cbv zeta. cbn [fst snd].
  destruct (scrape_loop_stamps fetched now (take MAX_JOBS (u :: new)) 0 [] self)
    as (t' & Ht' & Hstamps).
  exists t'. rewrite Ht'. by split; [|split].
Qed.

(** X30. Two steps in a row never return the same job address twice:
    when the second step reads the file that the first left, and every
    time stamp of the first step is later than the cutoff of the
    second, no job of the second step has the address of a job of the
    first. *)
Theorem step_scrape_no_repeat fetched1 now1 cutoff1 urls1
        fetched2 now2 cutoff2 urls2 path stored :
  (forall i, str_ltb cutoff2 (now1 i) = true) ->
  let r1 := step_scrape md5_hexdigest fetched1 now1 path cutoff1 urls1 stored in
  let r2 := step_scrape md5_hexdigest fetched2 now2 path cutoff2 urls2 r1.2 in
  Forall (fun j1 : job =>
            Forall (fun j2 : job => j1 !!! "url" <> j2 !!! "url") r2.1)
    r1.1.
Proof.
  intros Hnow r1 r2. apply Forall_forall. intros j1 Hj1.
  apply Forall_forall. intros j2 Hj2 Heq. subst r1 r2.
  unfold step_scrape in *. cbv zeta in *. cbn [fst snd] in *.
  set (t0 := new_tracker path stored cutoff1) in *.
  (* the first step *)
  destruct (scrape_somalijobs_adds md5_hexdigest fetched1 now1 urls1 (Some t0))
    as (new1 & Hjobs1 & Hsub1 & _ & Htr1).
  cbn [fst snd app] in Hjobs1, Htr1.
  destruct (scrape_somalijobs_written fetched1 now1 urls1 t0)
    as [[_ Hnil]|(t1 & Ht1 & Hsaved & Hstamps)];
    [rewrite Hnil in Hj1; by apply elem_of_nil in Hj1|].
  rewrite Ht1 in Htr1. destruct Htr1 as [_ Hdom].
  rewrite Hsaved in Hj2.
  rewrite Hjobs1 in Hj1.
  assert (Hnew1 : is_seen md5_hexdigest t0 (j1 !!! "url") = false).
  { assert (Hin : j1 !!! "url" ∈ filter_new md5_hexdigest t0 urls1).
    { eapply elem_of_sublist; [|apply (sublist_take _ MAX_JOBS)].
      eapply elem_of_sublist; [|exact Hsub1].
      by apply (list_elem_of_fmap_2 (fun j : job => j !!! "url")). }
    by apply filter_new_elem in Hin as [_ Hin]. }
  assert (Hmarked : job_uid md5_hexdigest (j1 !!! "url") ∈ dom (seen t1)).
  { rewrite Hdom. apply elem_of_union_r, elem_of_list_to_set.
    by apply (list_elem_of_fmap_2
                (fun j : job => job_uid md5_hexdigest (j !!! "url"))). }
  apply elem_of_dom in Hmarked as [v Hv].
  destruct (Hstamps _ _ Hv) as [Hold|[i ->]].
  { unfold is_seen in Hnew1. apply bool_decide_eq_false in Hnew1.
    apply Hnew1. by exists v. }
  (* the second step *)
  set (t2 := new_tracker path (Some (seen t1)) cutoff2) in *.
  destruct (scrape_somalijobs_adds md5_hexdigest fetched2 now2 urls2 (Some t2))
    as (new2 & Hjobs2 & Hsub2 & _).
  cbn [fst snd app] in Hjobs2. rewrite Hjobs2 in Hj2.
  assert (Hin : j2 !!! "url" ∈ filter_new md5_hexdigest t2 urls2).
  { eapply elem_of_sublist; [|apply (sublist_take _ MAX_JOBS)].
    eapply elem_of_sublist; [|exact Hsub2].
    by apply (list_elem_of_fmap_2 (fun j : job => j !!! "url")). }
  apply filter_new_elem in Hin as [_ Hnew2].
  unfold is_seen in Hnew2. apply bool_decide_eq_false in Hnew2.
  apply Hnew2. exists (now1 i). rewrite <- Heq.
  subst t2. unfold new_tracker, _load. cbn [seen].
  apply map_lookup_filter_Some. split; [done|]. apply Hnow.
Qed.

End Steps.

Lemma step_scrape_no_repeat_witness :
  let step := step_scrape (fun u => u) (fun _ => Some page_two_titles)
                (fun _ => py "2026-01-01T00:00:00")
                (py "/data/seen_jobs.json") (py "2025-11-02T00:00:00") in
  Forall (fun j1 : job =>
            Forall (fun j2 : job => j1 !!! "url" <> j2 !!! "url")
              (step [sample_url; py "https://somalijobs.com/jobs/garowe/7/x"]
                 (step [sample_url] None).2).1)
    (step [sample_url] None).1.
Proof.
  intros step.
  apply (step_scrape_no_repeat (fun u => u)
           (fun _ => Some page_two_titles) (fun _ => py "2026-01-01T00:00:00")
           (py "2025-11-02T00:00:00") [sample_url]
           (fun _ => Some page_two_titles) (fun _ => py "2026-01-01T00:00:00")
           (py "2025-11-02T00:00:00")
           [sample_url; py "https://somalijobs.com/jobs/garowe/7/x"]
           (py "/data/seen_jobs.json") None).
  intros i. reflexivity.
Defined.
